(** * The signed-request pipeline of the TikTok API client (src/index.ts)

    A shallow embedding of the three pieces of [TikTokAPI] that carry the
    behaviour of the pipeline: the constructor (the signer guard), the request
    interceptor [signRequest] and the response decoder [transformResponse].

    JavaScript values are an inductive type, objects are property lists in
    own-property order, the wall clock and the calls made to caller-supplied
    functions are threaded through an explicit [World]. *)

From Stdlib Require Import ZArith List String Ascii Bool Lia.
From Stdlib Require Import DecimalString.
Import ListNotations.

Local Open Scope string_scope.
Local Open Scope Z_scope.
Local Set Warnings "-register-all".

(** ** Values *)

Module Js.

(** A JavaScript value.  [VNum n] is the number [n] (the integral doubles, which
    is all the pipeline computes with); [VFloat lit] is a number that is not
    an integer, carried by its decimal literal; a function is a reference
    into the table of function objects of the [World]; [VHost] is any other
    object known by identity only (the cookie jar, the axios instance). *)
Inductive value : Type :=
| VUndefined
| VNull
| VBool (b : bool)
| VNum (n : Z)
| VFloat (lit : string)
| VStr (s : string)
| VArr (xs : list value)
| VObj (props : list (string * value))
| VFun (ref : nat)
| VHost (ref : nat).

(** What a [throw] carries. *)
Inductive exn : Type :=
| Error (msg : string)
| TypeError (msg : string)
| SyntaxError (msg : string)
| Raised (v : value).

(** The completion of a synchronous call. *)
Inductive completion (A : Type) : Type :=
| Returned (a : A)
| Thrown (e : exn).
Arguments Returned {A} a.
Arguments Thrown {A} e.

(** The state of a promise once the event loop has run it as far as it goes. *)
Inductive promise (A : Type) : Type :=
| Fulfilled (a : A)
| Rejected (e : exn)
| Unsettled.
Arguments Fulfilled {A} a.
Arguments Rejected {A} e.
Arguments Unsettled {A}.

(** What a function hands back: a plain value or a promise of one. *)
Inductive result : Type :=
| Plain (v : value)
| Promised (p : promise value).

(** A function object: its declared arity ([f.length]) and its behaviour,
    which is taken to depend on the arguments only (the serializer and the
    signer are given as stateless delegates). *)
Record fn : Type := mkFn {
  arity : nat;
  call : list value -> completion result
}.

(** *** Objects

    A property list is read as an object literal reads: a later definition of
    a key replaces the value and keeps the place of the first one.  The keys
    the pipeline writes ([ts], [_rticket], [url], [params]) are not array
    indices, so they never move ahead of the properties already there. *)

Definition obj : Type := list (string * value).

Fixpoint obj_set (k : string) (v : value) (o : obj) : obj :=
  match o with
  | [] => [(k, v)]
  | (k', v') :: r =>
      if String.eqb k k' then (k', v) :: r else (k', v') :: obj_set k v r
  end.

(** [{ d1, d2, ... }]: the property definitions evaluated left to right. *)
Definition obj_lit (defs : list (string * value)) : obj :=
  fold_left (fun o d => obj_set (fst d) (snd d) o) defs [].

(** [o[k]] on a property list: the last definition of [k]. *)
Fixpoint obj_get (k : string) (o : obj) : option value :=
  match o with
  | [] => None
  | (k', v) :: r =>
      match obj_get k r with
      | Some x => Some x
      | None => if String.eqb k k' then Some v else None
      end
  end.

(** [o.k] for an object: [undefined] when the property is missing. *)
Definition prop (o : obj) (k : string) : value :=
  match obj_get k o with
  | Some v => v
  | None => VUndefined
  end.

(** The keys of a property list are all different. *)
Definition uniq (o : obj) : Prop := NoDup (map fst o).

(** *** Primitive operations *)

Definition decimal (n : Z) : string := NilZero.string_of_int (Z.to_int n).

Definition is_function (v : value) : bool :=
  match v with
  | VFun _ => true
  | _ => false
  end.

(** [!v] is [negb (truthy v)]. *)
Definition truthy (v : value) : bool :=
  match v with
  | VUndefined | VNull => false
  | VBool b => b
  | VNum n => negb (n =? 0)
  | VFloat _ => true
  | VStr s => negb (String.eqb s "")
  | VArr _ | VObj _ | VFun _ | VHost _ => true
  end.

Fixpoint join (sep : string) (parts : list string) : string :=
  match parts with
  | [] => ""
  | [p] => p
  | p :: r => p ++ sep ++ join sep r
  end.

(** String conversion, as a template literal does it.  The source text of a
    function and the rendering of a host object are not known to the model:
    they get the text the default [Object.prototype.toString] would give. *)
Fixpoint to_string (v : value) : string :=
  match v with
  | VUndefined => "undefined"
  | VNull => "null"
  | VBool true => "true"
  | VBool false => "false"
  | VNum n => decimal n
  | VFloat lit => lit
  | VStr s => s
  | VArr xs =>
      join "," (map (fun x => match x with
                              | VUndefined | VNull => ""
                              | _ => to_string x
                              end) xs)
  | VObj _ => "[object Object]"
  | VFun _ => "[object Function]"
  | VHost _ => "[object Object]"
  end.

Definition result_to_string (r : result) : string :=
  match r with
  | Plain v => to_string v
  | Promised _ => "[object Promise]"
  end.

Definition chars (s : string) : list value :=
  map (fun c => VStr (String c "")) (list_ascii_of_string s).

Fixpoint indexed (i : nat) (xs : list value) : list (string * value) :=
  match xs with
  | [] => []
  | x :: r => (decimal (Z.of_nat i), x) :: indexed (S i) r
  end.

(** The own enumerable properties a spread [...v] copies. *)
Definition own_props (v : value) : list (string * value) :=
  match v with
  | VObj o => obj_lit o
  | VArr xs => indexed 0 xs
  | VStr s => indexed 0 (chars s)
  | _ => []
  end.

(** [v.length]; on a function it is the arity, which needs the table. *)
Definition length_of (code : nat -> fn) (v : value) : value :=
  match v with
  | VStr s => VNum (Z.of_nat (String.length s))
  | VArr xs => VNum (Z.of_nat (List.length xs))
  | VObj o => prop o "length"
  | VFun f => VNum (Z.of_nat (arity (code f)))
  | _ => VUndefined
  end.

(** [v.k] for a key that is neither [length] nor an array index: a
    [TypeError] on [undefined] and [null], the property of an object,
    [undefined] on anything else. *)
Definition member (v : value) (k : string) : completion value :=
  match v with
  | VUndefined | VNull =>
      Thrown (TypeError ("Cannot read property '" ++ k ++ "' of " ++ to_string v))
  | VObj o => Returned (prop o k)
  | _ => Returned VUndefined
  end.

End Js.

(** ** The world the client runs in *)

Module Run.
Import Js.

(** What the code does to its surroundings, in order. *)
Inductive event : Type :=
| EvNow (t : Z)                                   (* [new Date()] read the clock *)
| EvCall (site : string) (f : nat) (args : list value) (r : completion result)
                                                  (* the call [site(args)] ran [f] *)
| EvNewCookieJar (jar : nat)                      (* [new CookieJar()] *)
| EvAxiosCreate (inst : nat) (cfg : obj)          (* [axios.create(cfg)] *)
| EvCookieJarSupport (inst : nat)                 (* [axiosCookieJarSupport(inst)] *)
| EvUseRequestInterceptor (inst : nat) (f : value).

(** [clock i] is the epoch time in milliseconds that the [i]-th reading of
    the wall clock gives; [reads] counts the readings made so far; [code] is
    the table of function objects; [hosts] numbers the host objects made so
    far. *)
Record World : Type := mkWorld {
  clock : nat -> Z;
  reads : nat;
  code : nat -> fn;
  hosts : nat;
  trace : list event
}.

Definition log (e : event) (w : World) : World :=
  mkWorld (clock w) (reads w) (code w) (hosts w) (trace w ++ [e]).

Definition tick (w : World) : World :=
  mkWorld (clock w) (S (reads w)) (code w) (hosts w) (trace w).

Definition fresh_host (w : World) : nat * World :=
  (hosts w, mkWorld (clock w) (reads w) (code w) (S (hosts w)) (trace w)).

(** The body of an [async] function: it runs to a value, to an exception, or
    stops for good at an [await] whose promise never settles. *)
Definition Async (A : Type) : Type := World -> promise A * World.

Definition ret {A} (a : A) : Async A := fun w => (Fulfilled a, w).

Definition throw {A} (e : exn) : Async A := fun w => (Rejected e, w).

Definition bind {A B} (m : Async A) (k : A -> Async B) : Async B :=
  fun w =>
    match m w with
    | (Fulfilled a, w') => k a w'
    | (Rejected e, w') => (Rejected e, w')
    | (Unsettled, w') => (Unsettled, w')
    end.

Declare Scope async_scope.
Delimit Scope async_scope with async.
Notation "x <- m ;; k" := (bind m (fun x => k))
  (at level 100, m at next level, right associativity) : async_scope.
Local Open Scope async_scope.

Definition lift {A} (c : completion A) : Async A :=
  match c with
  | Returned a => ret a
  | Thrown e => throw e
  end.

(** [(new Date()).getTime()] *)
Definition now : Async Z :=
  fun w => let t := clock w (reads w) in (Fulfilled t, log (EvNow t) (tick w)).

(** [name(args)] for a callee already evaluated to [f]. *)
Definition invoke (name : string) (f : value) (args : list value) : Async result :=
  match f with
  | VFun id =>
      fun w =>
        let r := call (code w id) args in
        match r with
        | Returned x => (Fulfilled x, log (EvCall name id args r) w)
        | Thrown e => (Rejected e, log (EvCall name id args r) w)
        end
  | _ => throw (TypeError (name ++ " is not a function"))
  end.

(** [await r] *)
Definition await (r : result) : Async value :=
  match r with
  | Plain v => ret v
  | Promised (Fulfilled v) => ret v
  | Promised (Rejected e) => throw e
  | Promised Unsettled => fun w => (Unsettled, w)
  end.

(** Calling an [async] function never throws: it returns the promise. *)
Definition async {A} (body : Async A) : World -> completion (promise A) * World :=
  fun w => let (p, w') := body w in (Returned p, w').

End Run.

(** ** The response parser *)

Module JSONBig.
Import Js.
Local Open Scope char_scope.
Local Open Scope list_scope.

(** index.ts imports the parser from the json-bigint package and configures
    it with [storeAsString: true]; the package is not among the sources of
    the client.  This module follows the parse function of the package (its
    lib/parse.js, the 0.x releases the client was written against): a
    recursive descent over the characters of the text, with [white],
    [number], [string], [word], [array], [object] and [value] reading from
    the current character on.  Here each of them takes the remaining text
    and hands back what it read and the text left; a refusal ([error] in the
    package, which throws) is [None], and the message and position that the
    thrown object carries are not kept.

    The package decides what a number literal becomes by the length of its
    text: a literal of more than 15 characters is handed back as that text
    (the [storeAsString] option), any other as a number. *)

Definition is_digit (c : ascii) : bool :=
  ((48 <=? nat_of_ascii c) && (nat_of_ascii c <=? 57))%nat.

Definition digit_val (c : ascii) : Z := Z.of_nat (nat_of_ascii c) - 48.

Definition digits_val (ds : list ascii) : Z :=
  fold_left (fun a c => 10 * a + digit_val c) ds 0.

(** [ch && ch <= ' '] *)
Definition is_white (c : ascii) : bool := (nat_of_ascii c <=? 32)%nat.

(** [white()]: skip what is blank. *)
Fixpoint white (s : list ascii) : list ascii :=
  match s with
  | c :: r => if is_white c then white r else s
  | [] => []
  end.

(** [while (ch >= '0' && ch <= '9') { string += ch; next(); }]: the longest
    prefix of digits, and what follows it. *)
Fixpoint span_digits (s : list ascii) : list ascii * list ascii :=
  match s with
  | c :: r =>
      if is_digit c then let (ds, rest) := span_digits r in (c :: ds, rest)
      else ([], s)
  | [] => ([], [])
  end.

(** *** Numbers *)

(** The parts [number()] collects into its [string]: the sign, the digits
    ahead of the point, the digits after a point when there is one, and the
    exponent when there is one (its letter, its sign when written, its
    digits).  Each run of digits may be empty. *)
Record numeral : Type := mkNumeral {
  negative : bool;
  int_digits : list ascii;
  fraction : option (list ascii);
  exponent : option (ascii * option ascii * list ascii)
}.

Definition sign_text (neg : bool) : list ascii := if neg then ["-"] else [].

Definition fraction_text (fr : option (list ascii)) : list ascii :=
  match fr with
  | Some fd => "." :: fd
  | None => []
  end.

Definition exponent_text (ex : option (ascii * option ascii * list ascii)) : list ascii :=
  match ex with
  | Some (e, Some sg, ed) => e :: sg :: ed
  | Some (e, None, ed) => e :: ed
  | None => []
  end.

(** The text of a literal, [string] at the end of [number()]. *)
Definition numeral_text (n : numeral) : list ascii :=
  sign_text (negative n) ++ int_digits n ++ fraction_text (fraction n)
  ++ exponent_text (exponent n).

Definition scan_sign (s : list ascii) : bool * list ascii :=
  match s with
  | c :: r => if c =? "-" then (true, r) else (false, s)
  | [] => (false, s)
  end.

Definition scan_fraction (s : list ascii) : option (list ascii) * list ascii :=
  match s with
  | c :: r =>
      if c =? "." then let (fd, rest) := span_digits r in (Some fd, rest)
      else (None, s)
  | [] => (None, s)
  end.

Definition scan_exponent_sign (s : list ascii) : option ascii * list ascii :=
  match s with
  | c :: r => if (c =? "-") || (c =? "+") then (Some c, r) else (None, s)
  | [] => (None, s)
  end.

Definition scan_exponent (s : list ascii)
  : option (ascii * option ascii * list ascii) * list ascii :=
  match s with
  | c :: r =>
      if (c =? "e") || (c =? "E") then
        let (sg, r1) := scan_exponent_sign r in
        let (ed, rest) := span_digits r1 in
        (Some (c, sg, ed), rest)
      else (None, s)
  | [] => (None, s)
  end.

(** The scanning half of [number()]. *)
Definition scan_number (s : list ascii) : numeral * list ascii :=
  let (neg, s1) := scan_sign s in
  let (ds, s2) := span_digits s1 in
  let (fr, s3) := scan_fraction s2 in
  let (ex, s4) := scan_exponent s3 in
  (mkNumeral neg ds fr ex, s4).

Definition nonempty {A} (l : list A) : bool :=
  match l with
  | [] => false
  | _ :: _ => true
  end.

Definition fraction_digits (n : numeral) : list ascii :=
  match fraction n with
  | Some fd => fd
  | None => []
  end.

(** [+string] is a number and not [NaN]: there is a digit ahead of the
    exponent, and an exponent has a digit. *)
Definition numeric (n : numeral) : bool :=
  (nonempty (int_digits n) || nonempty (fraction_digits n))
  && match exponent n with
     | Some (_, _, ed) => nonempty ed
     | None => true
     end.

(** The literal stands for [mantissa * 10 ^ scale], up to its sign. *)
Definition mantissa (n : numeral) : Z :=
  digits_val (int_digits n ++ fraction_digits n).

Definition scale (n : numeral) : Z :=
  match exponent n with
  | Some (_, Some "-", ed) => - digits_val ed
  | Some (_, _, ed) => digits_val ed
  | None => 0
  end - Z.of_nat (List.length (fraction_digits n)).

(** The magnitudes from here on round to [Infinity]: half way between the
    largest double and [2 ^ 1024]. *)
Definition OVERFLOW : Z := 2 ^ 1024 - 2 ^ 970.

(** [isFinite(+string)] *)
Definition finite (n : numeral) : bool :=
  if (0 <=? scale n)%Z then (mantissa n * 10 ^ scale n <? OVERFLOW)%Z
  else (mantissa n <? OVERFLOW * 10 ^ (- scale n))%Z.

(** The magnitude, when it is a whole number. *)
Definition whole (n : numeral) : option Z :=
  if (0 <=? scale n)%Z then Some (mantissa n * 10 ^ scale n)
  else if (mantissa n mod 10 ^ (- scale n) =? 0)%Z
       then Some (mantissa n / 10 ^ (- scale n))
       else None.

(** The magnitudes up to here round to zero: half of the smallest double. *)
Definition vanishes (n : numeral) : bool :=
  (mantissa n * 2 ^ 1075 <=? 10 ^ (- scale n))%Z.

(** [+string], once it is known to be finite: a whole number that a double
    holds exactly is that number, a fraction too small for the doubles is
    zero, any other literal stands for the double nearest to it. *)
Definition to_number (n : numeral) : value :=
  match whole n with
  | Some m =>
      if (m <=? 2 ^ 53)%Z then VNum (if negative n then - m else m)
      else VFloat (string_of_list_ascii (numeral_text n))
  | None =>
      if vanishes n then VNum 0
      else VFloat (string_of_list_ascii (numeral_text n))
  end.

(** The deciding half of [number()]:

      number = +string;
      if (!isFinite(number)) { error("Bad number"); }
      else {
        if (string.length > 15)
          return (_options.storeAsString === true) ? string : new BigNumber(string);
        return number;
      } *)
Definition decode_number (n : numeral) : option value :=
  if numeric n && finite n then
    if (15 <? List.length (numeral_text n))%nat
    then Some (VStr (string_of_list_ascii (numeral_text n)))
    else Some (to_number n)
  else None.

Definition parse_number (s : list ascii) : option (value * list ascii) :=
  let (n, rest) := scan_number s in
  match decode_number n with
  | Some v => Some (v, rest)
  | None => None
  end.

(** *** Strings *)

(** [parseInt(c, 16)] of one character. *)
Definition hex_val (c : ascii) : option nat :=
  let n := nat_of_ascii c in
  if ((48 <=? n) && (n <=? 57))%nat then Some (n - 48)%nat
  else if ((97 <=? n) && (n <=? 102))%nat then Some (n - 87)%nat
  else if ((65 <=? n) && (n <=? 70))%nat then Some (n - 55)%nat
  else None.

(** [String.fromCharCode(n)]: strings are kept as UTF-8 here, one unit at a
    time. *)
Definition utf8 (n : nat) : list ascii :=
  if (n <? 128)%nat then [ascii_of_nat n]
  else if (n <? 2048)%nat then
    [ascii_of_nat (192 + n / 64); ascii_of_nat (128 + n mod 64)]
  else
    [ascii_of_nat (224 + n / 4096); ascii_of_nat (128 + (n / 64) mod 64);
     ascii_of_nat (128 + n mod 64)].

Definition cons_to {A B} (xs : list A) (r : option (list A * B)) : option (list A * B) :=
  match r with
  | Some (ys, b) => Some (xs ++ ys, b)
  | None => None
  end.

(** The table [escapee]. *)
Definition escapee (e : ascii) : option ascii :=
  match e with
  | "034" => Some "034"
  | "\" => Some "\"
  | "/" => Some "/"
  | "b" => Some "008"
  | "f" => Some "012"
  | "n" => Some "010"
  | "r" => Some "013"
  | "t" => Some "009"
  | _ => None
  end.

(** The loop of [string()], after the opening quote.  Any character but the
    quote and the backslash is taken as it is.  After [\u] up to four
    characters are read as hexadecimal digits; the first that is not one ends
    the unit (it is read all the same) and the unit is what the digits before
    it make. *)
Fixpoint parse_chars (s : list ascii) : option (list ascii * list ascii) :=
  match s with
  | [] => None
  | c :: r =>
      if c =? "034" then Some ([], r)
      else if c =? "\" then
        match r with
        | [] => None
        | e :: r0 =>
            if e =? "u" then
              match r0 with
              | [] => None
              | a :: r1 =>
                  match hex_val a with
                  | None => cons_to (utf8 0) (parse_chars r1)
                  | Some x =>
                      match r1 with
                      | [] => None
                      | b :: r2 =>
                          match hex_val b with
                          | None => cons_to (utf8 x) (parse_chars r2)
                          | Some y =>
                              match r2 with
                              | [] => None
                              | c' :: r3 =>
                                  match hex_val c' with
                                  | None => cons_to (utf8 (x * 16 + y)) (parse_chars r3)
                                  | Some z =>
                                      match r3 with
                                      | [] => None
                                      | d :: r4 =>
                                          match hex_val d with
                                          | None =>
                                              cons_to (utf8 ((x * 16 + y) * 16 + z))
                                                      (parse_chars r4)
                                          | Some t =>
                                              cons_to
                                                (utf8 (((x * 16 + y) * 16 + z) * 16 + t))
                                                (parse_chars r4)
                                          end
                                      end
                                  end
                              end
                          end
                      end
                  end
              end
            else
              match escapee e with
              | Some x => cons_to [x] (parse_chars r0)
              | None => None
              end
        end
      else cons_to [c] (parse_chars r)
  end.

(** [string()] *)
Definition parse_string (s : list ascii) : option (string * list ascii) :=
  match s with
  | c :: r =>
      if c =? "034" then
        match parse_chars r with
        | Some (cs, rest) => Some (string_of_list_ascii cs, rest)
        | None => None
        end
      else None
  | [] => None
  end.

(** *** Words *)

Definition literal (word : list ascii) (v : value) (s : list ascii)
  : option (value * list ascii) :=
  if list_eq_dec ascii_dec (firstn (List.length word) s) word
  then Some (v, skipn (List.length word) s)
  else None.

(** [word()] *)
Definition parse_word (s : list ascii) : option (value * list ascii) :=
  match s with
  | c :: _ =>
      if c =? "t" then literal ["t"; "r"; "u"; "e"] (VBool true) s
      else if c =? "f" then literal ["f"; "a"; "l"; "s"; "e"] (VBool false) s
      else if c =? "n" then literal ["n"; "u"; "l"; "l"] VNull s
      else None
  | [] => None
  end.

(** *** Objects *)

(** The digits of a whole number written the usual way: at least one, and
    no zero ahead of others. *)
Definition canonical (ds : list ascii) : bool :=
  match ds with
  | [] => false
  | [_] => true
  | c :: _ => negb (c =? "0")
  end.

(** The array index that a key writes, if it writes one. *)
Definition index_of (k : string) : option Z :=
  let ds := list_ascii_of_string k in
  if canonical ds && forallb is_digit ds && (digits_val ds <=? 4294967294)%Z
  then Some (digits_val ds)
  else None.

(** A new index goes among the indices, in increasing order, ahead of the
    other keys. *)
Fixpoint insert_index (i : Z) (k : string) (v : value) (o : obj) : obj :=
  match o with
  | [] => [(k, v)]
  | (k', v') :: r =>
      match index_of k' with
      | Some j => if (j <? i)%Z then (k', v') :: insert_index i k v r else (k, v) :: o
      | None => (k, v) :: o
      end
  end.

Definition own_key (k : string) (o : obj) : bool :=
  existsb (fun p => String.eqb k (fst p)) o.

(** [object[key] = v] on the plain object that [object()] fills.  A key
    that is there keeps its place; a new one is listed where the order of
    own properties puts it.  The key [__proto__] is the accessor of the
    prototype and makes no property. *)
Definition assign (k : string) (v : value) (o : obj) : obj :=
  if String.eqb k "__proto__" then o
  else if own_key k o then obj_set k v o
  else
    match index_of k with
    | Some i => insert_index i k v o
    | None => obj_set k v o
    end.

(** *** Values *)

(** [value()], then the loop of [array()] and the loop of [object()] from the
    test of their [while (ch)] on; [fuel] bounds the nesting and the number
    of elements, and the length of the text is enough for every document. *)
Fixpoint parse_value (fuel : nat) (s : list ascii) : option (value * list ascii) :=
  match fuel with
  | O => None
  | S f =>
      match white s with
      | [] => None
      | c :: r =>
          if c =? "{" then
            match white r with
            | [] => None
            | c' :: r' =>
                if c' =? "}" then Some (VObj [], r')
                else parse_members f (c' :: r') []
            end
          else if c =? "[" then
            match white r with
            | [] => None
            | c' :: r' =>
                if c' =? "]" then Some (VArr [], r')
                else parse_elements f (c' :: r') []
            end
          else if c =? "034" then
            match parse_string (c :: r) with
            | Some (str, r') => Some (VStr str, r')
            | None => None
            end
          else if c =? "-" then parse_number (c :: r)
          else if is_digit c then parse_number (c :: r)
          else parse_word (c :: r)
      end
  end
with parse_elements (fuel : nat) (s : list ascii) (acc : list value)
  : option (value * list ascii) :=
  match fuel with
  | O => None
  | S f =>
      match s with
      | [] => None
      | _ :: _ =>
          match parse_value f s with
          | Some (v, r) =>
              match white r with
              | c :: r' =>
                  if c =? "]" then Some (VArr (acc ++ [v]), r')
                  else if c =? "," then parse_elements f (white r') (acc ++ [v])
                  else None
              | [] => None
              end
          | None => None
          end
      end
  end
with parse_members (fuel : nat) (s : list ascii) (acc : obj)
  : option (value * list ascii) :=
  match fuel with
  | O => None
  | S f =>
      match s with
      | [] => None
      | _ :: _ =>
          match parse_string s with
          | Some (k, r) =>
              match white r with
              | c :: r1 =>
                  if c =? ":" then
                    match parse_value f r1 with
                    | Some (v, r2) =>
                        match white r2 with
                        | c' :: r3 =>
                            if c' =? "}" then Some (VObj (assign k v acc), r3)
                            else if c' =? ","
                                 then parse_members f (white r3) (assign k v acc)
                                 else None
                        | [] => None
                        end
                    | None => None
                    end
                  else None
              | [] => None
              end
          | None => None
          end
      end
  end.

(** [result = value(); white(); if (ch) { error("Syntax error"); }].  The
    refusals inside the document have messages of their own in the package
    ([Bad number], [Bad string], [Unexpected ...]); they are not told apart
    here. *)
Definition parse_text (text : string) : completion value :=
  let s := list_ascii_of_string text in
  match parse_value (S (List.length s)) s with
  | Some (v, r) =>
      match white r with
      | [] => Returned v
      | _ :: _ => Thrown (SyntaxError "Syntax error"%string)
      end
  | None => Thrown (SyntaxError "Malformed JSON document"%string)
  end.

(** [JSONBig({ storeAsString: true }).parse(source)]: the text is
    [source + '']. *)
Definition parse (source : value) : completion value :=
  parse_text (to_string source).

(** *** Documents

    The JSON documents with their layout: blanks wherever the grammar lets
    them stand, numbers with fractions and exponents, strings with their
    escapes. *)

(** What a string is written with. *)
Inductive item : Type :=
| Raw (c : ascii)
| Escape (e : ascii)
| Unit (a b c d : ascii).

Definition item_text (i : item) : list ascii :=
  match i with
  | Raw c => [c]
  | Escape e => ["\"; e]
  | Unit a b c d => ["\"; "u"; a; b; c; d]
  end.

Definition item_chars (i : item) : list ascii :=
  match i with
  | Raw c => [c]
  | Escape e =>
      match escapee e with
      | Some x => [x]
      | None => []
      end
  | Unit a b c d =>
      match hex_val a, hex_val b, hex_val c, hex_val d with
      | Some x, Some y, Some z, Some t => utf8 (((x * 16 + y) * 16 + z) * 16 + t)
      | _, _, _, _ => []
      end
  end.

Definition is_some {A} (o : option A) : bool :=
  match o with
  | Some _ => true
  | None => false
  end.

Definition item_wf (i : item) : bool :=
  match i with
  | Raw c => negb (c =? "034") && negb (c =? "\")
  | Escape e => is_some (escapee e)
  | Unit a b c d =>
      is_some (hex_val a) && is_some (hex_val b) && is_some (hex_val c)
      && is_some (hex_val d)
  end.

Definition str_text (s : list item) : list ascii := List.concat (map item_text s).

Definition str_chars (s : list item) : list ascii := List.concat (map item_chars s).

Definition quote (s : list item) : list ascii := "034" :: str_text s ++ ["034"].

(** A key and the blanks around it. *)
Record field : Type := mkField {
  before : list ascii;
  name : list item;
  after : list ascii
}.

Inductive doc : Type :=
| DNull
| DTrue
| DFalse
| DNum (n : numeral)
| DStr (s : list item)
| DArr (inner : list ascii) (xs : list doc)
| DObj (inner : list ascii) (ms : list (field * doc))
| DPad (pre : list ascii) (d : doc) (post : list ascii).

Definition exponent_wf (ex : option (ascii * option ascii * list ascii)) : bool :=
  match ex with
  | Some (e, sg, ed) =>
      ((e =? "e") || (e =? "E"))
      && match sg with
         | Some c => (c =? "-") || (c =? "+")
         | None => true
         end
      && forallb is_digit ed
  | None => true
  end.

(** A literal that [value()] hands to [number()]: digits where digits are
    read, a sign or a digit at the head. *)
Definition numeral_shape (n : numeral) : bool :=
  forallb is_digit (int_digits n)
  && forallb is_digit (fraction_digits n)
  && exponent_wf (exponent n)
  && (negative n || nonempty (int_digits n)).

(** A literal that [number()] takes: a number within the doubles. *)
Definition numeral_wf (n : numeral) : bool :=
  numeral_shape n && numeric n && finite n.

Definition field_wf (f : field) : bool :=
  forallb is_white (before f) && forallb item_wf (name f)
  && forallb is_white (after f).

Fixpoint wf (d : doc) : bool :=
  match d with
  | DNull | DTrue | DFalse => true
  | DNum n => numeral_wf n
  | DStr s => forallb item_wf s
  | DArr inner xs => forallb is_white inner && forallb wf xs
  | DObj inner ms =>
      forallb is_white inner
      && forallb (fun m => field_wf (fst m) && wf (snd m)) ms
  | DPad pre d post => forallb is_white pre && wf d && forallb is_white post
  end.

Fixpoint sep_concat (parts : list (list ascii)) : list ascii :=
  match parts with
  | [] => []
  | [p] => p
  | p :: r => p ++ "," :: sep_concat r
  end.

Definition member_text (render : doc -> list ascii) (m : field * doc) : list ascii :=
  before (fst m) ++ quote (name (fst m)) ++ after (fst m) ++ ":" :: render (snd m).

(** The text of a document. *)
Fixpoint render (d : doc) : list ascii :=
  match d with
  | DNull => ["n"; "u"; "l"; "l"]
  | DTrue => ["t"; "r"; "u"; "e"]
  | DFalse => ["f"; "a"; "l"; "s"; "e"]
  | DNum n => numeral_text n
  | DStr s => quote s
  | DArr inner xs => "[" :: inner ++ sep_concat (map render xs) ++ ["]"]
  | DObj inner ms => "{" :: inner ++ sep_concat (map (member_text render) ms) ++ ["}"]
  | DPad pre d post => pre ++ render d ++ post
  end.

Definition key_of (f : field) : string := string_of_list_ascii (str_chars (name f)).

(** What a document stands for: every number literal of more than 15
    characters its own text, every other one a number. *)
Fixpoint decoded (d : doc) : value :=
  match d with
  | DNull => VNull
  | DTrue => VBool true
  | DFalse => VBool false
  | DNum n =>
      if (15 <? List.length (numeral_text n))%nat
      then VStr (string_of_list_ascii (numeral_text n))
      else to_number n
  | DStr s => VStr (string_of_list_ascii (str_chars s))
  | DArr _ xs => VArr (map decoded xs)
  | DObj _ ms =>
      VObj (fold_left (fun o m => assign (key_of (fst m)) (decoded (snd m)) o) ms [])
  | DPad _ d _ => decoded d
  end.

(** The blanks a document ends with, which the parser leaves to its caller. *)
Fixpoint trail (d : doc) : list ascii :=
  match d with
  | DPad _ d post => trail d ++ post
  | _ => []
  end.

(** A whole-number literal: digits and maybe a sign. *)
Definition integer (neg : bool) (ds : list ascii) : numeral :=
  mkNumeral neg ds None None.

Definition int_text (neg : bool) (ds : list ascii) : list ascii :=
  if neg then "-" :: ds else ds.

Definition int_value (neg : bool) (ds : list ascii) : Z :=
  if neg then (- digits_val ds)%Z else digits_val ds.

(** What may follow a value inside a document. *)
Definition delim (rest : list ascii) : bool :=
  match rest with
  | [] => true
  | c :: _ => is_white c || (c =? ",") || (c =? "]") || (c =? "}")
  end.

(** Does the text start with a character of the class [p]? *)
Definition heads (p : ascii -> bool) (s : list ascii) : bool :=
  match s with
  | c :: _ => p c
  | [] => false
  end.

(** The characters a value starts with. *)
Definition start_char (c : ascii) : bool :=
  is_digit c || (c =? "-") || (c =? "n") || (c =? "t") || (c =? "f")
  || (c =? "034") || (c =? "[") || (c =? "{").

(** What the parser is to do on a document followed by [rest]. *)
Definition parsed (d : doc) : Prop :=
  wf d = true ->
  forall fuel rest,
    (List.length (render d) < fuel)%nat ->
    delim rest = true ->
    parse_value fuel (render d ++ rest) = Some (decoded d, trail d ++ rest).

Section DocInd.
Variable P : doc -> Prop.
Hypothesis HNull : P DNull.
Hypothesis HTrue : P DTrue.
Hypothesis HFalse : P DFalse.
Hypothesis HNum : forall n, P (DNum n).
Hypothesis HStr : forall s, P (DStr s).
Hypothesis HArr : forall inner xs, Forall P xs -> P (DArr inner xs).
Hypothesis HObj : forall inner ms, Forall (fun m => P (snd m)) ms -> P (DObj inner ms).
Hypothesis HPad : forall pre d post, P d -> P (DPad pre d post).

(** Induction on documents, through the lists. *)
Fixpoint doc_induction (d : doc) : P d :=
  match d with
  | DNull => HNull
  | DTrue => HTrue
  | DFalse => HFalse
  | DNum n => HNum n
  | DStr s => HStr s
  | DArr inner xs =>
      HArr inner xs ((fix go (l : list doc) : Forall P l :=
                        match l with
                        | [] => Forall_nil P
                        | x :: r => Forall_cons x (doc_induction x) (go r)
                        end) xs)
  | DObj inner ms =>
      HObj inner ms ((fix go (l : list (field * doc))
                        : Forall (fun m => P (snd m)) l :=
                        match l with
                        | [] => Forall_nil _
                        | m :: r => Forall_cons m (doc_induction (snd m)) (go r)
                        end) ms)
  | DPad pre d post => HPad pre d post (doc_induction d)
  end.
End DocInd.

End JSONBig.

(** ** The client *)

Module TikTokAPI.
Import Js Run.
Local Open Scope async_scope.

(** The fields of an instance: [this.config], [this.cookieJar],
    [this.request] and the [defaults] the axios instance keeps, which are the
    configuration [axios.create] was given (the library's own defaults, which
    have no [params], are left out). *)
Record client : Type := mkClient {
  config : obj;
  cookieJar : value;
  request : value;
  request_defaults : obj
}.

(** The function values the constructor takes from elsewhere: the result
    of [paramsSerializer(paramsOrder)], imported from ./params, and the
    instance's own arrow functions. *)
Record bound : Type := mkBound {
  the_paramsSerializer : value;
  the_transformResponse : value;
  the_signRequest : value
}.

Definition userAgent (reqParams : obj) : string :=
  "com.zhiliaoapp.musically/" ++ to_string (prop reqParams "manifest_version_code")
  ++ " (Linux; U; Android " ++ to_string (prop reqParams "os_version")
  ++ "; " ++ to_string (prop reqParams "language")
  ++ "_" ++ to_string (prop reqParams "region") ++ ";"
  ++ " " ++ to_string (prop reqParams "device_type")
  ++ "; Build/NHG47Q; Cronet/58.0.2991.0)".

(** [this.config] *)
Definition client_config (reqParams apiConfig : obj) : obj :=
  obj_lit ([("baseURL", VStr "https://api2.musical.ly/");
            ("host", VStr "api2.musical.ly");
            ("userAgent", VStr (userAgent reqParams))]
           ++ own_props (VObj apiConfig)).

(** The configuration given to [axios.create]. *)
Definition instance_config (b : bound) (cfg : obj) (jar : value)
    (reqParams : obj) (requestConfig : value) : obj :=
  obj_lit ([("paramsSerializer", the_paramsSerializer b);
            ("baseURL", prop cfg "baseURL");
            ("headers", VObj (obj_lit [("host", prop cfg "host");
                                       ("connection", VStr "keep-alive");
                                       ("accept-encoding", VStr "gzip");
                                       ("user-agent", prop cfg "userAgent")]));
            ("jar", jar);
            ("params", VObj reqParams);
            ("transformResponse", the_transformResponse b);
            ("withCredentials", VBool true)]
           ++ own_props requestConfig).

(** The constructor (index.ts, 24-57).  The library calls it makes
    ([new CookieJar()], [axios.create], [axiosCookieJarSupport],
    [interceptors.request.use]) are recorded in the trace. *)
Definition constructor (b : bound) (reqParams apiConfig : obj) (requestConfig : value)
  : World -> completion client * World :=
  fun w =>
    if negb (is_function (prop apiConfig "signURL")) then
      (Thrown (Error "You must supply a signURL function to the TikTokAPI config"), w)
    else
      let cfg := client_config reqParams apiConfig in
      let (jar, w1) := fresh_host w in
      let w2 := log (EvNewCookieJar jar) w1 in
      let icfg := instance_config b cfg (VHost jar) reqParams requestConfig in
      let (inst, w3) := fresh_host w2 in
      let w4 := log (EvAxiosCreate inst icfg) w3 in
      let w5 := log (EvCookieJarSupport inst) w4 in
      let w6 := log (EvUseRequestInterceptor inst (the_signRequest b)) w5 in
      (Returned (mkClient cfg (VHost jar) (VHost inst) icfg), w6).

(** [transformResponse] (index.ts, 374-379); the world is there for the
    table of functions only, which [data.length] reads when [data] is one. *)
Definition transformResponse (w : World) (data : value) : completion value :=
  if negb (truthy data) || negb (truthy (length_of (code w) data)) then
    Returned data
  else
    JSONBig.parse data.

(** [Math.floor(ms / 1000)]: division on [Z] rounds down, as [Math.floor]
    does, also before 1970. *)
Definition seconds (ms : Z) : Z := ms / 1000.

(** The parameters that are serialized: [{ ...config.params, ts, _rticket }]. *)
Definition fresh_params (params : value) (ts rticket : Z) : obj :=
  obj_lit (own_props params ++ [("ts", VNum ts); ("_rticket", VNum rticket)]).

(** The configuration handed on: [{ ...config, url: signedURL, params: {} }]. *)
Definition signed_config (cfg : obj) (signedURL : value) : obj :=
  obj_lit (own_props (VObj cfg) ++ [("url", signedURL); ("params", VObj [])]).

(** The canonical URL of line 399, for a serializer that returned [q]:
    [`${config.baseURL}${config.url}?${q}`]. *)
Definition canonical_url (cfg : obj) (q : result) : string :=
  to_string (prop cfg "baseURL") ++ to_string (prop cfg "url")
  ++ "?" ++ result_to_string q.

(** [signRequest] (index.ts, 387-407). *)
Definition signRequest_body (this : client) (cfg : obj) : Async obj :=
  if negb (is_function (prop cfg "paramsSerializer")) then
    throw (Error "Missing required paramsSerializer function")
  else
    t <- now ;;
    let ts := seconds t in
    rticket <- now ;;
    let params := fresh_params (prop cfg "params") ts rticket in
    q <- invoke "config.paramsSerializer" (prop cfg "paramsSerializer") [VObj params] ;;
    let url := canonical_url cfg q in
    let signURL := prop (config this) "signURL" in
    device_id <- lift (member (prop (request_defaults this) "params") "device_id") ;;
    r <- invoke "this.config.signURL" signURL [VStr url; VNum ts; device_id] ;;
    signedURL <- await r ;;
    ret (signed_config cfg signedURL).

Definition signRequest (this : client) (cfg : obj)
  : World -> completion (promise obj) * World :=
  async (signRequest_body this cfg).

(** What [await] gives for a result that settles with a value. *)
Definition settled (r : result) : option value :=
  match r with
  | Plain v => Some v
  | Promised (Fulfilled v) => Some v
  | Promised _ => None
  end.

(** The two readings of the clock that a run started in [w] makes. *)
Definition first_reading (w : World) : Z := clock w (reads w).
Definition second_reading (w : World) : Z := clock w (S (reads w)).

(** The parameter set such a run serializes. *)
Definition serialized_params (cfg : obj) (w : World) : obj :=
  fresh_params (prop cfg "params") (seconds (first_reading w)) (second_reading w).

(** The arguments such a run gives the signer, for a serializer that
    returned [q] and a device identifier [dev]. *)
Definition signer_args (cfg : obj) (w : World) (q : result) (dev : value)
  : list value :=
  [VStr (canonical_url cfg q); VNum (seconds (first_reading w)); dev].

(** Its events up to the serialization, and the call of the signer. *)
Definition prologue (cfg : obj) (w : World) (ser : nat) : list event :=
  [EvNow (first_reading w); EvNow (second_reading w);
   EvCall "config.paramsSerializer" ser [VObj (serialized_params cfg w)]
          (call (code w ser) [VObj (serialized_params cfg w)])].

Definition signing (cfg : obj) (w : World) (sid : nat) (q : result) (dev : value)
  : event :=
  EvCall "this.config.signURL" sid (signer_args cfg w q dev)
         (call (code w sid) (signer_args cfg w q dev)).

(** The promise of a run whose signer completed with [c]. *)
Definition delivered (cfg : obj) (c : completion result) : promise obj :=
  match c with
  | Thrown e => Rejected e
  | Returned (Plain u) => Fulfilled (signed_config cfg u)
  | Returned (Promised (Fulfilled u)) => Fulfilled (signed_config cfg u)
  | Returned (Promised (Rejected e)) => Rejected e
  | Returned (Promised Unsettled) => Unsettled
  end.

(** The world after a run that read the clock [n] times and left [evs]. *)
Definition after (w : World) (n : nat) (evs : list event) : World :=
  mkWorld (clock w) (n + reads w) (code w) (hosts w) (trace w ++ evs).

(** The three ways a run goes: stopped at the guard, stopped after the
    serialization, or gone as far as the signer. *)
Inductive run_shape (this : client) (cfg : obj) (w : World)
  : completion (promise obj) * World -> Prop :=
| AtGuard :
    is_function (prop cfg "paramsSerializer") = false ->
    run_shape this cfg w
      (Returned (Rejected (Error "Missing required paramsSerializer function")), w)
| AfterSerialization ser e :
    prop cfg "paramsSerializer" = VFun ser ->
    run_shape this cfg w (Returned (Rejected e), after w 2 (prologue cfg w ser))
| AtSigner ser q dev sid :
    prop cfg "paramsSerializer" = VFun ser ->
    call (code w ser) [VObj (serialized_params cfg w)] = Returned q ->
    member (prop (request_defaults this) "params") "device_id" = Returned dev ->
    prop (config this) "signURL" = VFun sid ->
    run_shape this cfg w
      (Returned (delivered cfg (call (code w sid) (signer_args cfg w q dev))),
       after w 2 (prologue cfg w ser ++ [signing cfg w sid q dev])).

(** The events of a run from [w] to [w']. *)
Definition emitted (w w' : World) : list event :=
  skipn (List.length (trace w)) (trace w').

Definition is_serialization (e : event) : bool :=
  match e with
  | EvCall site _ _ _ => String.eqb site "config.paramsSerializer"
  | _ => false
  end.

Definition is_signing (e : event) : bool :=
  match e with
  | EvCall site _ _ _ => String.eqb site "this.config.signURL"
  | _ => false
  end.

(** The calls of the signer that a run from [w] to [w'] made. *)
Definition signer_calls (w w' : World) : list event :=
  filter is_signing (emitted w w').

(** A completion that is an exception thrown at the caller, rather than a
    value (a promise, for an [async] function) handed back. *)
Definition thrown_synchronously {A} (c : completion A) : bool :=
  match c with
  | Thrown _ => true
  | Returned _ => false
  end.

(** A body that is empty, and a body whose length is zero. *)
Definition empty_body (data : value) : Prop :=
  data = VUndefined \/ data = VNull \/ data = VStr "".

Definition zero_length (w : World) (data : value) : Prop :=
  length_of (code w) data = VNum 0.

(** The wall clock never goes back. *)
Definition non_decreasing (clk : nat -> Z) : Prop :=
  forall i j, (i <= j)%nat -> clk i <= clk j.

(** The defaults of [getRequestParams] (index.ts, 417-442). *)
Definition default_request_params : obj :=
  [("os_api", VStr "23");
   ("device_type", VStr "Pixel");
   ("ssmix", VStr "a");
   ("manifest_version_code", VStr "2018080704");
   ("dpi", VNum 420);
   ("app_name", VStr "normal");
   ("version_name", VStr "8.1.0");
   ("timezone_offset", VNum 37800);
   ("is_my_cn", VNum 0);
   ("ac", VStr "wifi");
   ("update_version_code", VStr "2018080704");
   ("channel", VStr "googleplay");
   ("device_platform", VStr "android");
   ("build_number", VStr "8.1.0");
   ("version_code", VNum 810);
   ("timezone_name", VStr "Australia/Lord_Howe");
   ("resolution", VStr "1080*1920");
   ("os_version", VStr "7.1.2");
   ("device_brand", VStr "Google");
   ("mcc_mnc", VStr "");
   ("app_language", VStr "en");
   ("language", VStr "en");
   ("region", VStr "US");
   ("sys_region", VStr "US");
   ("carrier_region", VStr "AU");
   ("aid", VStr "1233")].

(** [getRequestParams] (index.ts, 416-444): [{ ...defaults, ...requestParams }].
    The order of the result is that of the source as long as the caller's
    keys are not array indices. *)
Definition getRequestParams (requestParams : obj) : obj :=
  obj_lit (default_request_params ++ own_props (VObj requestParams)).

(** The keys of an object, in order. *)
Definition keys (o : obj) : list string := map fst o.

Definition decimal_digit (c : ascii) : bool :=
  ((48 <=? nat_of_ascii c) && (nat_of_ascii c <=? 57))%nat.

(** The keys written as a whole number without a sign or a zero ahead:
    among them are the array indices, which an object lists before its other
    keys whenever they are defined. *)
Definition is_array_index (k : string) : bool :=
  match list_ascii_of_string k with
  | [] => false
  | [c] => decimal_digit c
  | c :: r => decimal_digit c && negb (Ascii.eqb c "0") && forallb decimal_digit r
  end.

Definition has_key (k : string) (ks : list string) : bool :=
  existsb (String.eqb k) ks.

(** The keys after a property [k] is defined: where it was, or last. *)
Definition add_key (k : string) (ks : list string) : list string :=
  if has_key k ks then ks else ks ++ [k].

(** The keys after the properties [new] are defined one after the other. *)
Definition merge_keys (ks new : list string) : list string :=
  fold_left (fun acc k => add_key k acc) new ks.

(** The events by which the constructor sets a client up, for the cookie
    jar [jar], the axios instance [inst] and its configuration. *)
Definition setup (jar inst : nat) (icfg : obj) (interceptor : value) : list event :=
  [EvNewCookieJar jar; EvAxiosCreate inst icfg; EvCookieJarSupport inst;
   EvUseRequestInterceptor inst interceptor].

(** The headers the constructor computes from [this.config]. *)
Definition computed_headers (cfg : obj) : obj :=
  [("host", prop cfg "host");
   ("connection", VStr "keep-alive");
   ("accept-encoding", VStr "gzip");
   ("user-agent", prop cfg "userAgent")].

End TikTokAPI.

(** ** The endpoint methods *)

Module Endpoints.
Import Js Run TikTokAPI.

(** What index.ts imports from ./params, ./cryptography and ./feed and from
    the qs package, none of which is among the sources: taken as they come. *)
Record imports : Type := mkImports {
  withDefaultListParams : value -> value;
  encryptWithXOR : string -> value;
  qs_stringify : value -> value;
  PullType_LoadMore : value;
  FeedType_ForYou : value;
  FeedType_Following : value
}.

(** The call an endpoint method makes on the axios instance:
    [this.request.get(url, config)] or [this.request.post(url, data, config)]. *)
Inductive axios_call : Type :=
| AxGet (url : string) (config : obj)
| AxPost (url : string) (data : value) (config : obj).

Definition login (params : value) : axios_call :=
  AxPost "passport/user/login/" VNull [("params", params)].

Definition loginWithEmail (im : imports) (email password : string) : axios_call :=
  login (VObj (obj_lit [("mix_mode", VNum 1);
                        ("username", VStr "");
                        ("email", encryptWithXOR im email);
                        ("mobile", VStr "");
                        ("account", VStr "");
                        ("password", encryptWithXOR im password);
                        ("captcha", VStr "");
                        ("app_type", VStr "normal")])).

Definition getUser (userId : string) : axios_call :=
  AxGet "aweme/v1/user/" [("params", VObj [("user_id", VStr userId)])].

Definition searchUsers (im : imports) (params : value) : axios_call :=
  AxGet "aweme/v1/discover/search/" [("params", withDefaultListParams im params)].

Definition listPosts (im : imports) (params : value) : axios_call :=
  AxGet "aweme/v1/aweme/post/" [("params", withDefaultListParams im params)].

Definition listFollowers (im : imports) (params : value) : axios_call :=
  AxGet "aweme/v1/user/follower/list/" [("params", withDefaultListParams im params)].

Definition listFollowing (im : imports) (params : value) : axios_call :=
  AxGet "aweme/v1/user/following/list/" [("params", withDefaultListParams im params)].

Definition follow (userId : string) : axios_call :=
  AxGet "aweme/v1/commit/follow/user/"
        [("params", VObj [("user_id", VStr userId); ("type", VNum 1)])].

Definition unfollow (userId : string) : axios_call :=
  AxGet "aweme/v1/commit/follow/user/"
        [("params", VObj [("user_id", VStr userId); ("type", VNum 0)])].

Definition listReceivedFollowRequests (im : imports) (params : value) : axios_call :=
  AxGet "aweme/v1/user/following/request/list/"
        [("params", withDefaultListParams im params)].

Definition approveFollowRequest (userId : string) : axios_call :=
  AxGet "aweme/v1/commit/follow/request/approve/"
        [("params", VObj [("from_user_id", VStr userId)])].

Definition rejectFollowRequest (userId : string) : axios_call :=
  AxGet "aweme/v1/commit/follow/request/reject/"
        [("params", VObj [("from_user_id", VStr userId)])].

Definition likePost (postId : string) : axios_call :=
  AxGet "aweme/v1/commit/item/digg/"
        [("params", VObj [("aweme_id", VStr postId); ("type", VNum 1)])].

Definition unlikePost (postId : string) : axios_call :=
  AxGet "aweme/v1/commit/item/digg/"
        [("params", VObj [("aweme_id", VStr postId); ("type", VNum 0)])].

(** The object literals that [listComments], [listPostsInHashtag] and the
    two feeds give to [withDefaultListParams]. *)
Definition comments_request (params : value) : obj :=
  obj_lit ([("comment_style", VNum 2); ("digged_cid", VStr ""); ("insert_cids", VStr "")]
           ++ own_props params).

Definition hashtag_posts_request (params : value) : obj :=
  obj_lit ([("query_type", VNum 0); ("type", VNum 5)] ++ own_props params).

Definition forYou_request (im : imports) (params : value) : obj :=
  obj_lit ([("count", VNum 6); ("is_cold_start", VNum 1); ("max_cursor", VNum 0);
            ("pull_type", PullType_LoadMore im); ("type", FeedType_ForYou im)]
           ++ own_props params).

Definition following_request (im : imports) (params : value) : obj :=
  obj_lit ([("count", VNum 6); ("is_cold_start", VNum 1); ("max_cursor", VNum 0);
            ("pull_type", PullType_LoadMore im); ("type", FeedType_Following im)]
           ++ own_props params).

Definition listComments (im : imports) (params : value) : axios_call :=
  AxGet "aweme/v1/comment/list/"
        [("params", withDefaultListParams im (VObj (comments_request params)))].

(** A parameter left out, or given as [undefined], takes its default. *)
Definition or_default (given default : value) : value :=
  match given with
  | VUndefined => default
  | _ => given
  end.

Definition postComment (im : imports) (postId text : string) (tags : value)
  : axios_call :=
  AxPost "aweme/v1/comment/publish/"
         (qs_stringify im
            (VObj (obj_lit [("text", VStr text);
                            ("aweme_id", VStr postId);
                            ("text_extra", or_default tags (VArr []));
                            ("is_self_see", VNum 0)])))
         [("headers", VObj [("content-type", VStr "application.x-www-form-urlencoded")])].

Definition listCategories (im : imports) (params : value) : axios_call :=
  AxGet "aweme/v1/category/list/"
        [("params",
          withDefaultListParams im
            (or_default params (VObj [("count", VNum 10); ("cursor", VNum 0)])))].

Definition searchHashtags (im : imports) (params : value) : axios_call :=
  AxGet "aweme/v1/challenge/search/" [("params", withDefaultListParams im params)].

Definition listPostsInHashtag (im : imports) (params : value) : axios_call :=
  AxGet "aweme/v1/challenge/aweme/"
        [("params", withDefaultListParams im (VObj (hashtag_posts_request params)))].

Definition listForYouFeed (im : imports) (params : value) : axios_call :=
  AxGet "aweme/v1/feed/"
        [("params", withDefaultListParams im (VObj (forYou_request im params)))].

Definition listFollowingFeed (im : imports) (params : value) : axios_call :=
  AxGet "aweme/v1/feed/"
        [("params", withDefaultListParams im (VObj (following_request im params)))].

Definition joinLiveStream (id : string) : axios_call :=
  AxGet "aweme/v1/room/enter/" [("params", VObj [("room_id", VStr id)])].

Definition leaveLiveStream (id : string) : axios_call :=
  AxGet "aweme/v1/room/leave/" [("params", VObj [("room_id", VStr id)])].

End Endpoints.

(** ** A client, a request and a world to run them in *)

Module Sample.
Import Js Run TikTokAPI.

(** A serializer in the manner of [qs.stringify]: [k=v] pairs joined by [&]. *)
Definition stringify : fn :=
  mkFn 1 (fun args =>
            match args with
            | VObj p :: _ =>
                Returned (Plain (VStr (join "&"
                  (map (fun d => fst d ++ "=" ++ to_string (snd d)) p))))
            | _ => Returned (Plain (VStr ""))
            end).

(** A signer that appends a token to the URL it is given, asynchronously. *)
Definition signer : fn :=
  mkFn 3 (fun args =>
            match args with
            | VStr url :: _ =>
                Returned (Promised (Fulfilled (VStr (url ++ "&as=a1&cp=b2"))))
            | _ => Returned (Promised (Rejected (Error "no url")))
            end).

Definition idle : fn := mkFn 0 (fun _ => Returned (Plain VUndefined)).

Definition table (i : nat) : fn :=
  match i with
  | 1%nat => stringify
  | 2%nat => signer
  | _ => idle
  end.

Definition wall_clock (i : nat) : Z :=
  match i with
  | 0%nat => 1541000000999
  | 1%nat => 1541000001001
  | 2%nat => 1541000001500
  | _ => 1541000002000
  end.

Definition world : World := mkWorld wall_clock 0 table 0 [].

Definition functions : bound := mkBound (VFun 1) (VFun 3) (VFun 4).

Definition reqParams : obj :=
  [("os_version", VStr "7.1.2"); ("device_id", VStr "6000000000000000001");
   ("aid", VStr "1233")].

Definition apiConfig : obj := [("signURL", VFun 2)].

(** The client that [new TikTokAPI(reqParams, apiConfig)] builds. *)
Definition api : client :=
  match fst (constructor functions reqParams apiConfig VUndefined world) with
  | Returned c => c
  | Thrown _ => mkClient [] VUndefined VUndefined []
  end.

(** The request of [joinLiveStream], whose caller also passed a [ts]. *)
Definition request_config : obj :=
  [("url", VStr "aweme/v1/room/enter/");
   ("method", VStr "get");
   ("baseURL", VStr "https://api2.musical.ly/");
   ("paramsSerializer", VFun 1);
   ("params", VObj [("ts", VNum 5); ("room_id", VStr "9")])].

(** The double quote, and the two bodies of the specification:
    [{"id": 123456789012345678}] and [{"count": 42}]. *)
Definition dq : string := String "034" "".

Definition body_id : string := "{" ++ dq ++ "id" ++ dq ++ ": 123456789012345678}".

Definition body_count : string := "{" ++ dq ++ "count" ++ dq ++ ": 42}".

Definition body_nested : string :=
  "{" ++ dq ++ "id" ++ dq ++ ": 123456789012345678,"
  ++ dq ++ "n" ++ dq ++ ": [42,-9007199254740992]}".

(** The largest integer that the native number type holds exactly, in the
    body [{"id": 9007199254740991}]. *)
Definition body_max : string := "{" ++ dq ++ "id" ++ dq ++ ": 9007199254740991}".

(** A body with no blank at all, [{"id":1}], and the document it writes. *)
Definition body_compact : string := "{" ++ dq ++ "id" ++ dq ++ ":1}".

Definition doc_compact : JSONBig.doc :=
  JSONBig.DObj []
    [(JSONBig.mkField [] (map JSONBig.Raw (list_ascii_of_string "id")) [],
      JSONBig.DNum (JSONBig.integer false (list_ascii_of_string "1")))].

(** A whole number of 309 digits, beyond the doubles. *)
Definition nines : list ascii := repeat "9"%char 309.

Definition nl : string := String "010" "".

Definition tab : string := String "009" "".

(** A body laid out freely: nothing after the first colon, a line break and
    a tab ahead of a key, blanks around the brackets and the commas, a
    fraction, an exponent, and the two kinds of escape. *)
Definition body_layout : string :=
  "{" ++ dq ++ "id" ++ dq ++ ":1," ++ nl ++ tab
  ++ dq ++ "big" ++ dq ++ " :  [ -100000000000000 , 2.50,1e3 ],"
  ++ dq ++ "a\nb" ++ dq ++ ":" ++ dq ++ "\u0041" ++ dq ++ " }".

(** The same body as a document. *)
Definition doc_layout : JSONBig.doc :=
  let chars s := list_ascii_of_string s in
  let plain s := map JSONBig.Raw (chars s) in
  let int neg ds := JSONBig.DNum (JSONBig.integer neg (chars ds)) in
  JSONBig.DObj []
    [(JSONBig.mkField [] (plain "id") [], int false "1");
     (JSONBig.mkField (chars (nl ++ tab)) (plain "big") (chars " "),
      JSONBig.DPad (chars "  ")
        (JSONBig.DArr (chars " ")
           [JSONBig.DPad [] (int true "100000000000000") (chars " ");
            JSONBig.DPad (chars " ")
              (JSONBig.DNum (JSONBig.mkNumeral false (chars "2") (Some (chars "50")) None))
              [];
            JSONBig.DPad []
              (JSONBig.DNum
                 (JSONBig.mkNumeral false (chars "1") None
                    (Some ("e"%char, None, chars "3"))))
              (chars " ")])
        []);
     (JSONBig.mkField [] [JSONBig.Raw "a"; JSONBig.Escape "n"; JSONBig.Raw "b"] [],
      JSONBig.DPad []
        (JSONBig.DStr [JSONBig.Unit "0" "0" "4" "1"])
        (chars " "))].

(** The same request with no serializer configured. *)
Definition bare_config : obj :=
  [("url", VStr "aweme/v1/room/enter/");
   ("baseURL", VStr "https://api2.musical.ly/");
   ("params", VObj [("room_id", VStr "9")])].

End Sample.

(** ** More clients, requests and worlds *)

Module Cases.
Import Js Run TikTokAPI Endpoints.

(** What a user of the library passes to [getRequestParams]: identifiers of
    the device, and an Android version in place of the default one. *)
Definition user_params : obj :=
  [("device_id", VStr "6000000000000000001");
   ("os_version", VStr "8.0.0");
   ("iid", VStr "6000000000000000002");
   ("openudid", VStr "0123456789abcdef")].

(** The client of [new TikTokAPI(getRequestParams(user_params), apiConfig)]. *)
Definition api : client :=
  match fst (constructor Sample.functions (getRequestParams user_params)
               Sample.apiConfig VUndefined Sample.world) with
  | Returned c => c
  | Thrown _ => mkClient [] VUndefined VUndefined []
  end.

(** A [requestConfig] with headers and a cookie jar of its own. *)
Definition own_request_config : value :=
  VObj [("headers", VObj [("x-test", VStr "1")]); ("jar", VHost 7)].

(** A client whose [requestConfig] took the default parameters away. *)
Definition stripped : client :=
  match fst (constructor Sample.functions Sample.reqParams Sample.apiConfig
               (VObj [("params", VUndefined)]) Sample.world) with
  | Returned c => c
  | Thrown _ => mkClient [] VUndefined VUndefined []
  end.

(** A signer whose promise is rejected, one that never settles, and a
    serializer that throws. *)
Definition rejecting_signer : fn :=
  mkFn 3 (fun _ => Returned (Promised (Rejected (Error "signing service unavailable")))).

Definition pending_signer : fn :=
  mkFn 3 (fun _ => Returned (Promised Unsettled)).

Definition throwing_serializer : fn :=
  mkFn 1 (fun _ => Thrown (Error "cannot serialize")).

Definition table (i : nat) : fn :=
  match i with
  | 1%nat => Sample.stringify
  | 2%nat => rejecting_signer
  | 5%nat => throwing_serializer
  | _ => Sample.idle
  end.

Definition world : World := mkWorld Sample.wall_clock 0 table 0 [].

Definition pending_world : World :=
  mkWorld Sample.wall_clock 0
          (fun i => match i with
                    | 1%nat => Sample.stringify
                    | _ => pending_signer
                    end) 0 [].

(** The request of [Sample.request_config] with the serializer that throws. *)
Definition unserializable_config : obj :=
  [("url", VStr "aweme/v1/room/enter/");
   ("baseURL", VStr "https://api2.musical.ly/");
   ("paramsSerializer", VFun 5);
   ("params", VObj [("room_id", VStr "9")])].

(** A client configured for another origin. *)
Definition custom_api_config : obj :=
  [("signURL", VFun 2); ("baseURL", VStr "https://api.example/");
   ("host", VStr "api.example")].

Definition custom : client :=
  match fst (constructor Sample.functions Sample.reqParams custom_api_config
               VUndefined Sample.world) with
  | Returned c => c
  | Thrown _ => mkClient [] VUndefined VUndefined []
  end.

(** A client built with [own_request_config]. *)
Definition configured : client :=
  match fst (constructor Sample.functions Sample.reqParams Sample.apiConfig
               own_request_config Sample.world) with
  | Returned c => c
  | Thrown _ => mkClient [] VUndefined VUndefined []
  end.

(** A client built from the defaults and a device identifier alone. *)
Definition default_client : client :=
  match fst (constructor Sample.functions
               (getRequestParams [("device_id", VStr "6000000000000000001")])
               Sample.apiConfig VUndefined Sample.world) with
  | Returned c => c
  | Thrown _ => mkClient [] VUndefined VUndefined []
  end.

(** A request with a serializer and nothing else. *)
Definition empty_config : obj := [("paramsSerializer", VFun 1)].

(** What the imports are taken to be in the examples: the list defaults
    left out, the feed constants as numbers. *)
Definition plain_imports : imports :=
  mkImports (fun v => v) (fun s => VStr s) (fun v => v) (VNum 2) (VNum 0) (VNum 1).

End Cases.

(** ** Facts about objects *)

Module ObjFacts.
Import Js.

Lemma obj_get_absent k o : ~ In k (map fst o) -> obj_get k o = None.
Proof.
  induction o as [|[k' v'] r IH]; simpl; intros H; [reflexivity|].
  rewrite IH by tauto.
  destruct (String.eqb_spec k k'); [subst; tauto | reflexivity].
Qed.

Lemma keys_obj_set k v o :
  forall x, In x (map fst (obj_set k v o)) <-> x = k \/ In x (map fst o).
Proof.
  induction o as [|[k' v'] r IH]; simpl; intros x.
  - intuition.
  - destruct (String.eqb_spec k k'); simpl.
    + subst. intuition congruence.
    + rewrite IH. intuition congruence.
Qed.

Lemma uniq_obj_set k v o : uniq o -> uniq (obj_set k v o).
Proof.
  unfold uniq. induction o as [|[k' v'] r IH]; simpl; intros H.
  - constructor; [intros [] | constructor].
  - inversion H as [|? ? Hn Hr]; subst.
    destruct (String.eqb_spec k k'); simpl.
    + constructor; assumption.
    + constructor; [|auto].
      rewrite keys_obj_set. intros [E|I]; [congruence | tauto].
Qed.

Lemma obj_get_set_ne k k' v o : k <> k' -> obj_get k (obj_set k' v o) = obj_get k o.
Proof.
  intros Hne. induction o as [|[k0 v0] r IH]; simpl.
  - destruct (String.eqb_spec k k'); [contradiction | reflexivity].
  - destruct (String.eqb_spec k' k0); simpl.
    + subst. destruct (obj_get k r); [reflexivity|].
      destruct (String.eqb_spec k k0); [contradiction | reflexivity].
    + rewrite IH. reflexivity.
Qed.

Lemma obj_get_set_eq k v o : uniq o -> obj_get k (obj_set k v o) = Some v.
Proof.
  unfold uniq. induction o as [|[k0 v0] r IH]; simpl; intros H.
  - rewrite String.eqb_refl. reflexivity.
  - inversion H as [|? ? Hn Hr]; subst.
    destruct (String.eqb_spec k k0); simpl.
    + subst. rewrite obj_get_absent by assumption.
      rewrite String.eqb_refl. reflexivity.
    + rewrite IH by assumption. reflexivity.
Qed.

(** Folding property definitions over an object: the last definition of a
    key wins, and a key that is not defined keeps what the object had. *)
Lemma obj_get_define defs : forall acc k,
  uniq acc ->
  obj_get k (fold_left (fun o d => obj_set (fst d) (snd d) o) defs acc)
  = match obj_get k defs with
    | Some v => Some v
    | None => obj_get k acc
    end.
Proof.
  induction defs as [|[k' v'] ds IH]; simpl; intros acc k U; [reflexivity|].
  rewrite IH by (apply uniq_obj_set; exact U).
  destruct (obj_get k ds); [reflexivity|].
  destruct (String.eqb_spec k k').
  - subst. apply obj_get_set_eq; exact U.
  - apply obj_get_set_ne; assumption.
Qed.

Lemma uniq_define defs : forall acc,
  uniq acc -> uniq (fold_left (fun o d => obj_set (fst d) (snd d) o) defs acc).
Proof.
  induction defs as [|d ds IH]; simpl; intros acc U; [exact U|].
  apply IH, uniq_obj_set, U.
Qed.

Lemma uniq_nil : uniq [].
Proof. constructor. Qed.

Lemma obj_get_lit k defs : obj_get k (obj_lit defs) = obj_get k defs.
Proof.
  unfold obj_lit. rewrite obj_get_define by apply uniq_nil.
  destruct (obj_get k defs); reflexivity.
Qed.

Lemma uniq_lit defs : uniq (obj_lit defs).
Proof. apply uniq_define, uniq_nil. Qed.

Lemma obj_get_app k (a b : obj) :
  obj_get k (a ++ b)%list
  = match obj_get k b with
    | Some v => Some v
    | None => obj_get k a
    end.
Proof.
  induction a as [|[k' v'] r IH]; simpl.
  - destruct (obj_get k b); reflexivity.
  - rewrite IH. destruct (obj_get k b); reflexivity.
Qed.

Lemma uniq_In_get k v o : uniq o -> In (k, v) o -> obj_get k o = Some v.
Proof.
  unfold uniq. induction o as [|[k' v'] r IH]; simpl; intros U H; [contradiction|].
  inversion U as [|? ? Hn Hr]; subst.
  destruct H as [E|I].
  - injection E as -> ->. rewrite obj_get_absent by assumption.
    rewrite String.eqb_refl. reflexivity.
  - rewrite (IH Hr I). reflexivity.
Qed.

End ObjFacts.

(** ** The runs of [signRequest] *)

Module SignFacts.
Import Js Run TikTokAPI ObjFacts.

Lemma fresh_params_ts p ts rticket :
  obj_get "ts" (fresh_params p ts rticket) = Some (VNum ts).
Proof. unfold fresh_params. rewrite obj_get_lit, obj_get_app. reflexivity. Qed.

Lemma fresh_params_rticket p ts rticket :
  obj_get "_rticket" (fresh_params p ts rticket) = Some (VNum rticket).
Proof. unfold fresh_params. rewrite obj_get_lit, obj_get_app. reflexivity. Qed.

Lemma obj_get_two k k1 v1 k2 v2 :
  k <> k1 -> k <> k2 -> obj_get k [(k1, v1); (k2, v2)] = None.
Proof.
  intros H1 H2. simpl.
  destruct (String.eqb_spec k k2); [contradiction|].
  destruct (String.eqb_spec k k1); [contradiction | reflexivity].
Qed.

Lemma fresh_params_other k p ts rticket :
  k <> "ts" -> k <> "_rticket" ->
  obj_get k (fresh_params p ts rticket) = obj_get k (own_props p).
Proof.
  intros H1 H2. unfold fresh_params.
  rewrite obj_get_lit, obj_get_app, obj_get_two by assumption. reflexivity.
Qed.

Lemma signed_config_url cfg u : obj_get "url" (signed_config cfg u) = Some u.
Proof. unfold signed_config. rewrite obj_get_lit, obj_get_app. reflexivity. Qed.

Lemma signed_config_params cfg u :
  obj_get "params" (signed_config cfg u) = Some (VObj []).
Proof. unfold signed_config. rewrite obj_get_lit, obj_get_app. reflexivity. Qed.

Lemma signed_config_other k cfg u :
  k <> "url" -> k <> "params" ->
  obj_get k (signed_config cfg u) = obj_get k cfg.
Proof.
  intros H1 H2. unfold signed_config.
  rewrite obj_get_lit, obj_get_app, obj_get_two by assumption.
  simpl. apply obj_get_lit.
Qed.

Lemma emitted_after w n evs : emitted w (after w n evs) = evs.
Proof.
  unfold emitted, after; simpl.
  rewrite skipn_app, Nat.sub_diag, skipn_all. reflexivity.
Qed.

Lemma bind_now {B} (k : Z -> Async B) w :
  bind now k w = k (clock w (reads w)) (log (EvNow (clock w (reads w))) (tick w)).
Proof. reflexivity. Qed.

Lemma bind_invoke {B} name id args (k : result -> Async B) w :
  bind (invoke name (VFun id) args) k w
  = match call (code w id) args with
    | Returned x => k x (log (EvCall name id args (Returned x)) w)
    | Thrown e => (Rejected e, log (EvCall name id args (Thrown e)) w)
    end.
Proof.
  unfold bind, invoke. destruct (call (code w id) args); reflexivity.
Qed.

Lemma bind_invoke_other {B} name f args (k : result -> Async B) w :
  is_function f = false ->
  bind (invoke name f args) k w
  = (Rejected (TypeError (name ++ " is not a function")), w).
Proof. destruct f; simpl; intros H; try discriminate H; reflexivity. Qed.

Lemma bind_lift {A B} (c : completion A) (k : A -> Async B) w :
  bind (lift c) k w
  = match c with
    | Returned a => k a w
    | Thrown e => (Rejected e, w)
    end.
Proof. destruct c; reflexivity. Qed.

Ltac step :=
  rewrite ?bind_now, ?bind_invoke, ?bind_lift;
  cbn [clock reads code hosts trace log tick].

Ltac same_world :=
  unfold after, prologue, signing, signer_args, serialized_params,
         first_reading, second_reading, log, tick;
  cbn [clock reads code hosts trace Nat.add];
  rewrite <- ?app_assoc; reflexivity.

Section Run.
Variables (this : client) (cfg : obj) (w : World).

Lemma guard_fails :
  is_function (prop cfg "paramsSerializer") = false ->
  signRequest this cfg w
  = (Returned (Rejected (Error "Missing required paramsSerializer function")), w).
Proof.
  intros H. unfold signRequest, async, signRequest_body.
  rewrite H. reflexivity.
Qed.

Lemma serializer_throws ser e :
  prop cfg "paramsSerializer" = VFun ser ->
  call (code w ser) [VObj (serialized_params cfg w)] = Thrown e ->
  signRequest this cfg w = (Returned (Rejected e), after w 2 (prologue cfg w ser)).
Proof.
  intros Hs Hc. unfold signRequest, async, signRequest_body.
  rewrite Hs. cbn [is_function negb].
  unfold prologue. rewrite Hc.
  unfold serialized_params, first_reading, second_reading in *.
  do 3 step. rewrite Hc. f_equal. same_world.
Qed.

Lemma device_missing ser q e :
  prop cfg "paramsSerializer" = VFun ser ->
  call (code w ser) [VObj (serialized_params cfg w)] = Returned q ->
  member (prop (request_defaults this) "params") "device_id" = Thrown e ->
  signRequest this cfg w = (Returned (Rejected e), after w 2 (prologue cfg w ser)).
Proof.
  intros Hs Hc Hm. unfold signRequest, async, signRequest_body.
  rewrite Hs. cbn [is_function negb].
  unfold prologue. rewrite Hc.
  unfold serialized_params, first_reading, second_reading in *.
  do 3 step. rewrite Hc. step. rewrite Hm. f_equal. same_world.
Qed.

Lemma signer_missing ser q dev :
  prop cfg "paramsSerializer" = VFun ser ->
  call (code w ser) [VObj (serialized_params cfg w)] = Returned q ->
  member (prop (request_defaults this) "params") "device_id" = Returned dev ->
  is_function (prop (config this) "signURL") = false ->
  signRequest this cfg w
  = (Returned (Rejected (TypeError "this.config.signURL is not a function")),
     after w 2 (prologue cfg w ser)).
Proof.
  intros Hs Hc Hm Hf. unfold signRequest, async, signRequest_body.
  rewrite Hs. cbn [is_function negb].
  unfold prologue. rewrite Hc.
  unfold serialized_params, first_reading, second_reading in *.
  do 3 step. rewrite Hc. step. rewrite Hm.
  rewrite bind_invoke_other by exact Hf. f_equal. same_world.
Qed.

Lemma signer_called ser q dev sid :
  prop cfg "paramsSerializer" = VFun ser ->
  call (code w ser) [VObj (serialized_params cfg w)] = Returned q ->
  member (prop (request_defaults this) "params") "device_id" = Returned dev ->
  prop (config this) "signURL" = VFun sid ->
  signRequest this cfg w
  = (Returned (delivered cfg (call (code w sid) (signer_args cfg w q dev))),
     after w 2 (prologue cfg w ser ++ [signing cfg w sid q dev])).
Proof.
  intros Hs Hc Hm Hf. unfold signRequest, async, signRequest_body.
  rewrite Hs, Hf. cbn [is_function negb].
  unfold prologue, signing, signer_args. rewrite Hc.
  unfold serialized_params, first_reading, second_reading in *.
  do 3 step. rewrite Hc. step. rewrite Hm. step.
  destruct (call (code w sid) _) as [[v|[v|e|]]|e]; cbn [delivered];
    unfold bind, await, ret, throw; f_equal; same_world.
Qed.

(** Every run is one of the three of [run_shape]. *)
Lemma run_cases : run_shape this cfg w (signRequest this cfg w).
Proof.
  destruct (is_function (prop cfg "paramsSerializer")) eqn:Hg.
  2:{ rewrite guard_fails by exact Hg. apply AtGuard, Hg. }
  destruct (prop cfg "paramsSerializer") as [| | | | | | | |ser|] eqn:Hs;
    try discriminate Hg.
  destruct (call (code w ser) [VObj (serialized_params cfg w)]) as [q|e] eqn:Hc.
  2:{ rewrite (serializer_throws ser e Hs Hc). apply AfterSerialization, Hs. }
  destruct (member (prop (request_defaults this) "params") "device_id")
    as [dev|e] eqn:Hm.
  2:{ rewrite (device_missing ser q e Hs Hc Hm). apply AfterSerialization, Hs. }
  destruct (is_function (prop (config this) "signURL")) eqn:Hf.
  2:{ rewrite (signer_missing ser q dev Hs Hc Hm Hf). apply AfterSerialization, Hs. }
  destruct (prop (config this) "signURL") as [| | | | | | | |sid|] eqn:Hu;
    try discriminate Hf.
  rewrite (signer_called ser q dev sid Hs Hc Hm Hu).
  apply (AtSigner this cfg w ser q dev sid Hs Hc Hm Hu).
Qed.

End Run.

(** A run serializes the parameter set of [serialized_params], and nothing
    else. *)
Lemma serialization_event this cfg w f args r :
  In (EvCall "config.paramsSerializer" f args r)
     (emitted w (snd (signRequest this cfg w))) ->
  prop cfg "paramsSerializer" = VFun f
  /\ args = [VObj (serialized_params cfg w)]
  /\ reads (snd (signRequest this cfg w)) = S (S (reads w)).
Proof.
  destruct (run_cases this cfg w) as [Hg|ser e Hs|ser q dev sid Hs Hc Hm Hu];
    cbn [snd]; rewrite ?emitted_after.
  - unfold emitted. rewrite skipn_all. intros [].
  - unfold prologue. cbn [In].
    intros [E|[E|[E|[]]]]; try discriminate E.
    injection E as -> -> _. auto.
  - unfold prologue, signing. cbn [In app].
    intros [E|[E|[E|[E|[]]]]]; try discriminate E.
    injection E as -> -> _. auto.
Qed.

(** A run that got past the guard reads the clock twice and then serializes. *)
Lemma serialization_happens this cfg w ser :
  prop cfg "paramsSerializer" = VFun ser ->
  exists rest,
    emitted w (snd (signRequest this cfg w)) = (prologue cfg w ser ++ rest)%list
    /\ forallb (fun e => negb (is_serialization e)) rest = true.
Proof.
  intros Hp.
  destruct (run_cases this cfg w) as [Hg|ser' e Hs|ser' q dev sid Hs Hc Hm Hu];
    cbn [snd]; rewrite ?emitted_after.
  - rewrite Hp in Hg. discriminate Hg.
  - rewrite Hp in Hs. injection Hs as <-.
    exists []. rewrite app_nil_r. split; reflexivity.
  - rewrite Hp in Hs. injection Hs as <-.
    exists [signing cfg w sid q dev]. split; reflexivity.
Qed.

(** The runs that are fulfilled. *)
Lemma fulfilled_run this cfg w out w' :
  signRequest this cfg w = (Returned (Fulfilled out), w') ->
  exists ser q dev sid r u,
    prop cfg "paramsSerializer" = VFun ser
    /\ call (code w ser) [VObj (serialized_params cfg w)] = Returned q
    /\ member (prop (request_defaults this) "params") "device_id" = Returned dev
    /\ prop (config this) "signURL" = VFun sid
    /\ call (code w sid) (signer_args cfg w q dev) = Returned r
    /\ settled r = Some u
    /\ out = signed_config cfg u
    /\ w' = after w 2 (prologue cfg w ser ++ [signing cfg w sid q dev]).
Proof.
  destruct (run_cases this cfg w) as [Hg|ser e Hs|ser q dev sid Hs Hc Hm Hu];
    intros E; try discriminate E.
  injection E as E1 E2.
  destruct (call (code w sid) (signer_args cfg w q dev)) as [r|e] eqn:Hr;
    try discriminate E1.
  exists ser, q, dev, sid, r.
  destruct r as [u|[u|e|]]; try discriminate E1;
    injection E1 as <-; exists u; repeat split; auto.
Qed.

(** A client that the constructor returned has a signer to call and,
    unless [requestConfig] brought its own [params], the static request
    parameters as its default ones. *)
Lemma constructed_client b reqParams apiConfig requestConfig w cl w' :
  constructor b reqParams apiConfig requestConfig w = (Returned cl, w') ->
  is_function (prop (config cl) "signURL") = true
  /\ (obj_get "params" (own_props requestConfig) = None ->
      prop (request_defaults cl) "params" = VObj reqParams).
Proof.
  unfold constructor.
  destruct (is_function (prop apiConfig "signURL")) eqn:Hf; cbn [negb];
    [|discriminate].
  cbn [fresh_host fst snd]. intros E. injection E as <- _. cbn [config request_defaults].
  split.
  - unfold client_config, prop in *.
    rewrite obj_get_lit, obj_get_app. cbn [own_props]. rewrite obj_get_lit.
    destruct (obj_get "signURL" apiConfig); [exact Hf | discriminate Hf].
  - intros Hn. unfold instance_config, prop.
    rewrite obj_get_lit, obj_get_app, Hn. reflexivity.
Qed.

End SignFacts.

(** ** The parser on rendered documents *)

Module ParseFacts.
Import Js JSONBig.
Local Open Scope char_scope.
Local Open Scope list_scope.

(** *** Blanks *)

Lemma white_app pre s : forallb is_white pre = true -> white (pre ++ s) = white s.
Proof.
  induction pre as [|c pre IH]; simpl; intros H; [reflexivity|].
  apply andb_prop in H. destruct H as [Hc Hp]. rewrite Hc. apply IH, Hp.
Qed.

Lemma white_plain c r : is_white c = false -> white (c :: r) = c :: r.
Proof. intros H. simpl. rewrite H. reflexivity. Qed.

Lemma white_all ws : forallb is_white ws = true -> white ws = [].
Proof.
  induction ws as [|c ws IH]; simpl; intros H; [reflexivity|].
  apply andb_prop in H. destruct H as [Hc Hp]. rewrite Hc. apply IH, Hp.
Qed.

Lemma white_idem s : white (white s) = white s.
Proof.
  induction s as [|c s IH]; [reflexivity|]. simpl.
  destruct (is_white c) eqn:E; [exact IH|]. simpl. rewrite E. reflexivity.
Qed.

Lemma white_then ws c r :
  forallb is_white ws = true -> is_white c = false -> white (ws ++ c :: r) = c :: r.
Proof. intros Hw Hc. rewrite (white_app ws _ Hw). apply white_plain, Hc. Qed.

Lemma white_not_digit c : is_white c = true -> is_digit c = false.
Proof.
  unfold is_white, is_digit. intros H. apply Nat.leb_le in H.
  apply andb_false_iff. left. apply Nat.leb_gt. lia.
Qed.

Lemma start_not_white c : start_char c = true -> is_white c = false.
Proof.
  intros H. destruct (is_white c) eqn:W; [|reflexivity].
  revert H. unfold start_char. rewrite (white_not_digit c W).
  repeat match goal with
         | |- context [(c =? ?x)%char] =>
             destruct (Ascii.eqb_spec c x) as [->|_]; [cbv in W; discriminate W|]
         end.
  discriminate.
Qed.

Lemma digit_start c : is_digit c = true -> start_char c = true.
Proof. intros H. unfold start_char. rewrite H. reflexivity. Qed.

(** *** What follows a value *)

Lemma delim_cases c r :
  delim (c :: r) = true -> is_white c = true \/ c = "," \/ c = "]" \/ c = "}".
Proof.
  simpl. intros H.
  apply orb_true_iff in H. destruct H as [H|H].
  2:{ right. right. right. apply Ascii.eqb_eq, H. }
  apply orb_true_iff in H. destruct H as [H|H].
  2:{ right. right. left. apply Ascii.eqb_eq, H. }
  apply orb_true_iff in H. destruct H as [H|H].
  - left. exact H.
  - right. left. apply Ascii.eqb_eq, H.
Qed.

(** A character that closes a value belongs to no class that a number reads
    on. *)
Lemma delim_heads (p : ascii -> bool) rest :
  (forall c, is_white c = true -> p c = false) ->
  p "," = false -> p "]" = false -> p "}" = false ->
  delim rest = true ->
  heads p rest = false.
Proof.
  intros Hw H1 H2 H3 Hd. destruct rest as [|c r]; [reflexivity|].
  destruct (delim_cases c r Hd) as [W|[->|[->| ->]]]; simpl; auto.
Qed.

Lemma white_not c x : is_white x = false -> is_white c = true -> (c =? x) = false.
Proof.
  intros Hx Hc. destruct (Ascii.eqb_spec c x) as [->|_]; [congruence | reflexivity].
Qed.

Lemma delim_no_digit rest : delim rest = true -> heads is_digit rest = false.
Proof. apply delim_heads; [apply white_not_digit | reflexivity ..]. Qed.

Lemma delim_no_point rest :
  delim rest = true -> heads (fun c => c =? ".") rest = false.
Proof.
  apply delim_heads; [|reflexivity ..].
  intros c. apply white_not. reflexivity.
Qed.

Lemma delim_no_letter rest :
  delim rest = true -> heads (fun c => (c =? "e") || (c =? "E")) rest = false.
Proof.
  apply delim_heads; [|reflexivity ..].
  intros c W. rewrite (white_not c "e" eq_refl W), (white_not c "E" eq_refl W).
  reflexivity.
Qed.

Lemma delim_no_sign rest :
  delim rest = true -> heads (fun c => (c =? "-") || (c =? "+")) rest = false.
Proof.
  apply delim_heads; [|reflexivity ..].
  intros c W. rewrite (white_not c "-" eq_refl W), (white_not c "+" eq_refl W).
  reflexivity.
Qed.

Lemma delim_pad post rest :
  forallb is_white post = true -> delim rest = true -> delim (post ++ rest) = true.
Proof.
  intros Hp Hr. destruct post as [|c post]; [exact Hr|].
  simpl in Hp. apply andb_prop in Hp. destruct Hp as [Hc _].
  simpl. rewrite Hc. reflexivity.
Qed.

(** *** Numbers *)

Lemma digit_not c x : is_digit x = false -> is_digit c = true -> (c =? x) = false.
Proof.
  intros Hx Hc. destruct (Ascii.eqb_spec c x) as [->|_]; [congruence | reflexivity].
Qed.

Lemma heads_app (p : ascii -> bool) ds rest :
  (forall c, is_digit c = true -> p c = false) ->
  forallb is_digit ds = true ->
  heads p rest = false ->
  heads p (ds ++ rest) = false.
Proof.
  intros Hp Hd Hr. destruct ds as [|c ds]; [exact Hr|].
  simpl in Hd. apply andb_prop in Hd. destruct Hd as [Hc _].
  simpl. apply Hp, Hc.
Qed.

Lemma span_digits_app ds tail :
  forallb is_digit ds = true ->
  heads is_digit tail = false ->
  span_digits (ds ++ tail) = (ds, tail).
Proof.
  intros Hd Hr. induction ds as [|c ds IH].
  - destruct tail as [|c r]; [reflexivity|].
    simpl in *. rewrite Hr. reflexivity.
  - simpl in Hd. apply andb_prop in Hd. destruct Hd as [Hc Hd].
    simpl. rewrite Hc, (IH Hd). reflexivity.
Qed.

Lemma scan_fraction_text fr tail :
  forallb is_digit (match fr with Some fd => fd | None => [] end) = true ->
  heads is_digit tail = false ->
  heads (fun c => c =? ".") tail = false ->
  scan_fraction (fraction_text fr ++ tail) = (fr, tail).
Proof.
  intros Hd Ht Hp. destruct fr as [fd|].
  - simpl. rewrite (span_digits_app fd tail Hd Ht). reflexivity.
  - destruct tail as [|c r]; [reflexivity|].
    simpl in *. rewrite Hp. reflexivity.
Qed.

Lemma scan_exponent_text ex rest :
  exponent_wf ex = true ->
  delim rest = true ->
  scan_exponent (exponent_text ex ++ rest) = (ex, rest).
Proof.
  intros Hw Hr. destruct ex as [[[e sg] ed]|].
  - simpl in Hw. apply andb_prop in Hw. destruct Hw as [Hw Hd].
    apply andb_prop in Hw. destruct Hw as [He Hs].
    assert (D : span_digits (ed ++ rest) = (ed, rest))
      by (apply span_digits_app; [exact Hd | apply delim_no_digit, Hr]).
    destruct sg as [c|].
    + cbn [exponent_text app scan_exponent scan_exponent_sign].
      rewrite He, Hs, D. reflexivity.
    + cbn [exponent_text app scan_exponent]. rewrite He.
      assert (S0 : scan_exponent_sign (ed ++ rest) = (None, ed ++ rest)).
      { assert (N : heads (fun c => (c =? "-") || (c =? "+")) (ed ++ rest) = false).
        { apply heads_app; [|exact Hd | apply delim_no_sign, Hr].
          intros c Hc.
          rewrite (digit_not c "-" eq_refl Hc), (digit_not c "+" eq_refl Hc).
          reflexivity. }
        destruct (ed ++ rest) as [|c r]; [reflexivity|].
        simpl in *. rewrite N. reflexivity. }
      rewrite S0, D. reflexivity.
  - pose proof (delim_no_letter rest Hr) as N.
    destruct rest as [|c r]; [reflexivity|].
    simpl in *. rewrite N. reflexivity.
Qed.

Lemma exponent_heads ex rest :
  exponent_wf ex = true ->
  delim rest = true ->
  heads is_digit (exponent_text ex ++ rest) = false
  /\ heads (fun c => c =? ".") (exponent_text ex ++ rest) = false.
Proof.
  intros Hw Hr. destruct ex as [[[e sg] ed]|].
  - simpl in Hw. apply andb_prop in Hw. destruct Hw as [Hw _].
    apply andb_prop in Hw. destruct Hw as [He _].
    assert (E : e = "e" \/ e = "E").
    { apply orb_true_iff in He. destruct He as [He|He];
        apply Ascii.eqb_eq in He; [left | right]; exact He. }
    destruct sg as [c|]; destruct E as [-> | ->]; split; reflexivity.
  - split; [apply delim_no_digit, Hr | apply delim_no_point, Hr].
Qed.

Lemma numeral_shape_parts n :
  numeral_shape n = true ->
  forallb is_digit (int_digits n) = true
  /\ forallb is_digit (fraction_digits n) = true
  /\ exponent_wf (exponent n) = true
  /\ (negative n || nonempty (int_digits n)) = true.
Proof.
  unfold numeral_shape. intros H.
  repeat (apply andb_prop in H; destruct H as [H ?]).
  repeat split; assumption.
Qed.

Lemma numeral_wf_parts n :
  numeral_wf n = true ->
  numeral_shape n = true /\ numeric n = true /\ finite n = true.
Proof.
  unfold numeral_wf. intros H.
  apply andb_prop in H. destruct H as [H Hfin].
  apply andb_prop in H. destruct H as [Hs Hn].
  repeat split; assumption.
Qed.

(** A literal starts with its sign or with a digit. *)
Lemma numeral_head n rest :
  numeral_shape n = true ->
  exists c tl, numeral_text n ++ rest = c :: tl /\ (c = "-" \/ is_digit c = true).
Proof.
  intros W. destruct (numeral_shape_parts n W) as (Hd & _ & _ & Hs).
  destruct n as [neg ds fr ex]. unfold numeral_text. cbn [negative int_digits] in *.
  destruct neg.
  - eexists; eexists; split; [reflexivity | left; reflexivity].
  - destruct ds as [|c ds]; [discriminate Hs|].
    simpl in Hd. apply andb_prop in Hd. destruct Hd as [Hc _].
    eexists; eexists; split; [reflexivity | right; exact Hc].
Qed.

Lemma scan_number_text n rest :
  numeral_shape n = true ->
  delim rest = true ->
  scan_number (numeral_text n ++ rest) = (n, rest).
Proof.
  intros W Hr. destruct (numeral_shape_parts n W) as (Hd & Hf & He & Hs).
  destruct (exponent_heads (exponent n) rest He Hr) as [X1 X2].
  destruct n as [neg ds fr ex].
  unfold numeral_text, fraction_digits in *.
  cbn [negative int_digits fraction exponent] in *.
  rewrite <- !app_assoc. unfold scan_number.
  assert (S1 : scan_sign (sign_text neg ++ ds ++ fraction_text fr ++ exponent_text ex ++ rest)
               = (neg, ds ++ fraction_text fr ++ exponent_text ex ++ rest)).
  { destruct neg; [reflexivity|].
    destruct ds as [|c ds]; [discriminate Hs|].
    simpl in Hd. apply andb_prop in Hd. destruct Hd as [Hc _].
    simpl. rewrite (digit_not c "-" eq_refl Hc). reflexivity. }
  rewrite S1.
  assert (T : heads is_digit (fraction_text fr ++ exponent_text ex ++ rest) = false).
  { destruct fr as [fd|]; [reflexivity | exact X1]. }
  rewrite (span_digits_app ds _ Hd T).
  rewrite (scan_fraction_text fr _ Hf X1 X2).
  rewrite (scan_exponent_text ex rest He Hr).
  reflexivity.
Qed.

(** A literal beyond the doubles is refused. *)
Lemma parse_number_overflow n rest :
  numeral_shape n = true ->
  finite n = false ->
  delim rest = true ->
  parse_number (numeral_text n ++ rest) = None.
Proof.
  intros W Hfin Hr.
  unfold parse_number. rewrite (scan_number_text n rest W Hr).
  unfold decode_number. rewrite Hfin, andb_false_r. reflexivity.
Qed.

Lemma parse_number_text n rest :
  numeral_wf n = true ->
  delim rest = true ->
  parse_number (numeral_text n ++ rest) = Some (decoded (DNum n), rest).
Proof.
  intros W Hr. destruct (numeral_wf_parts n W) as (Hs & Hn & Hfin).
  unfold parse_number. rewrite (scan_number_text n rest Hs Hr).
  unfold decode_number. rewrite Hn, Hfin. cbn [andb decoded].
  destruct (15 <? List.length (numeral_text n))%nat; reflexivity.
Qed.

(** What [number()] reads is the text of the literal it decodes, whatever
    the text it is given. *)
Lemma span_digits_split s ds rest : span_digits s = (ds, rest) -> s = ds ++ rest.
Proof.
  revert ds rest. induction s as [|c s IH]; intros ds rest H.
  - injection H as <- <-. reflexivity.
  - simpl in H. destruct (is_digit c).
    + destruct (span_digits s) as [ds' rest'] eqn:E.
      injection H as <- <-. simpl. rewrite (IH ds' rest' eq_refl). reflexivity.
    + injection H as <- <-. reflexivity.
Qed.

Lemma scan_sign_split s neg rest :
  scan_sign s = (neg, rest) -> s = sign_text neg ++ rest.
Proof.
  destruct s as [|c s]; simpl; intros H.
  - injection H as <- <-. reflexivity.
  - destruct (Ascii.eqb_spec c "-") as [->|_]; injection H as <- <-; reflexivity.
Qed.

Lemma scan_fraction_split s fr rest :
  scan_fraction s = (fr, rest) -> s = fraction_text fr ++ rest.
Proof.
  destruct s as [|c s]; simpl; intros H.
  - injection H as <- <-. reflexivity.
  - destruct (Ascii.eqb_spec c ".") as [->|_].
    + destruct (span_digits s) as [fd rest'] eqn:E.
      injection H as <- <-. simpl. rewrite (span_digits_split s fd rest' E). reflexivity.
    + injection H as <- <-. reflexivity.
Qed.

Lemma scan_exponent_split s ex rest :
  scan_exponent s = (ex, rest) -> s = exponent_text ex ++ rest.
Proof.
  destruct s as [|c s]; simpl; intros H.
  - injection H as <- <-. reflexivity.
  - destruct ((c =? "e") || (c =? "E")).
    + destruct (scan_exponent_sign s) as [sg r1] eqn:E1.
      destruct (span_digits r1) as [ed r2] eqn:E2.
      injection H as <- <-. apply span_digits_split in E2. subst r1.
      destruct s as [|c' s']; simpl in E1.
      * injection E1 as <- E1. cbn [exponent_text app]. rewrite <- E1. reflexivity.
      * destruct ((c' =? "-") || (c' =? "+")); injection E1 as <- E1.
        -- subst s'. reflexivity.
        -- cbn [exponent_text app]. rewrite <- E1. reflexivity.
    + injection H as <- <-. reflexivity.
Qed.

Lemma scan_number_split s n rest :
  scan_number s = (n, rest) -> s = numeral_text n ++ rest.
Proof.
  unfold scan_number. intros H.
  destruct (scan_sign s) as [neg s1] eqn:E1.
  destruct (span_digits s1) as [ds s2] eqn:E2.
  destruct (scan_fraction s2) as [fr s3] eqn:E3.
  destruct (scan_exponent s3) as [ex s4] eqn:E4.
  injection H as <- <-.
  apply scan_sign_split in E1. apply span_digits_split in E2.
  apply scan_fraction_split in E3. apply scan_exponent_split in E4.
  unfold numeral_text. cbn [negative int_digits fraction exponent].
  rewrite <- !app_assoc. subst. reflexivity.
Qed.

Lemma parse_number_reads s v rest :
  parse_number s = Some (v, rest) ->
  exists n, s = numeral_text n ++ rest /\ decode_number n = Some v
            /\ v = decoded (DNum n).
Proof.
  unfold parse_number. intros H.
  destruct (scan_number s) as [n r] eqn:E.
  destruct (decode_number n) as [x|] eqn:D; [|discriminate H].
  injection H as <- <-.
  exists n. split; [apply scan_number_split, E|]. split; [exact D|].
  unfold decode_number in D. cbn [decoded].
  destruct (numeric n && finite n); [|discriminate D].
  destruct (15 <? List.length (numeral_text n))%nat; injection D as <-; reflexivity.
Qed.

(** *** Strings *)

Lemma item_step i r :
  item_wf i = true ->
  parse_chars (item_text i ++ r) = cons_to (item_chars i) (parse_chars r).
Proof.
  destruct i as [c|e|a b c d]; intros H.
  - simpl in H. apply andb_prop in H. destruct H as [H1 H2].
    cbn [item_text item_chars app parse_chars].
    destruct (c =? "034"); [discriminate H1|].
    destruct (c =? "\"); [discriminate H2 | reflexivity].
  - cbn [item_wf] in H. cbn [item_text item_chars app].
    destruct (escapee e) as [x|] eqn:E; [|discriminate H].
    assert (U : (e =? "u") = false).
    { destruct (Ascii.eqb_spec e "u") as [->|_]; [cbv in E; discriminate E | reflexivity]. }
    cbn [parse_chars]. change ("\" =? "034")%char with false.
    change ("\" =? "\")%char with true. cbv iota.
    rewrite U, E. reflexivity.
  - cbn [item_wf] in H.
    cbn [item_text item_chars app].
    destruct (hex_val a) as [x|] eqn:Ea; [|discriminate H].
    destruct (hex_val b) as [y|] eqn:Eb; [|discriminate H].
    destruct (hex_val c) as [z|] eqn:Ec; [|discriminate H].
    destruct (hex_val d) as [t|] eqn:Ed; [|discriminate H].
    cbn [parse_chars]. change ("\" =? "034")%char with false.
    change ("\" =? "\")%char with true. change ("u" =? "u")%char with true.
    cbv iota. rewrite Ea, Eb, Ec, Ed. reflexivity.
Qed.

Lemma parse_chars_text s rest :
  forallb item_wf s = true ->
  parse_chars (str_text s ++ "034" :: rest) = Some (str_chars s, rest).
Proof.
  induction s as [|i s IH]; intros H.
  - reflexivity.
  - simpl in H. apply andb_prop in H. destruct H as [Hi Hs].
    unfold str_text, str_chars in *. cbn [map List.concat].
    rewrite <- app_assoc, (item_step i _ Hi), (IH Hs). reflexivity.
Qed.

Lemma parse_string_quote s rest :
  forallb item_wf s = true ->
  parse_string (quote s ++ rest) = Some (string_of_list_ascii (str_chars s), rest).
Proof.
  intros H. unfold quote, parse_string.
  change (("034" :: str_text s ++ ["034"]) ++ rest)
    with ("034" :: ((str_text s ++ ["034"]) ++ rest)).
  rewrite <- app_assoc. cbn [app].
  rewrite Ascii.eqb_refl, (parse_chars_text s rest H). reflexivity.
Qed.

(** *** Words *)

Lemma literal_word word v rest : literal word v (word ++ rest) = Some (v, rest).
Proof.
  unfold literal.
  assert (F : firstn (List.length word) (word ++ rest) = word
              /\ skipn (List.length word) (word ++ rest) = rest).
  { induction word as [|c word [IH1 IH2]]; simpl; [split; reflexivity|].
    rewrite IH1. split; [reflexivity | exact IH2]. }
  destruct F as [F K]. rewrite F, K.
  destruct (list_eq_dec ascii_dec word word) as [_|N]; [reflexivity | contradiction].
Qed.

(** *** The three loops, one turn at a time *)

Lemma parse_value_step f s :
  parse_value (S f) s
  = match white s with
    | [] => None
    | c :: r =>
        if c =? "{" then
          match white r with
          | [] => None
          | c' :: r' =>
              if c' =? "}" then Some (VObj [], r')
              else parse_members f (c' :: r') []
          end
        else if c =? "[" then
          match white r with
          | [] => None
          | c' :: r' =>
              if c' =? "]" then Some (VArr [], r')
              else parse_elements f (c' :: r') []
          end
        else if c =? "034" then
          match parse_string (c :: r) with
          | Some (str, r') => Some (VStr str, r')
          | None => None
          end
        else if c =? "-" then parse_number (c :: r)
        else if is_digit c then parse_number (c :: r)
        else parse_word (c :: r)
    end.
Proof. reflexivity. Qed.

Lemma parse_elements_step f s acc :
  parse_elements (S f) s acc
  = match parse_value f s with
    | Some (v, r) =>
        match white r with
        | c :: r' =>
            if c =? "]" then Some (VArr (acc ++ [v]), r')
            else if c =? "," then parse_elements f (white r') (acc ++ [v])
            else None
        | [] => None
        end
    | None => None
    end.
Proof. destruct s; [destruct f; reflexivity | reflexivity]. Qed.

Lemma parse_members_step f s acc :
  parse_members (S f) s acc
  = match parse_string s with
    | Some (k, r) =>
        match white r with
        | c :: r1 =>
            if c =? ":" then
              match parse_value f r1 with
              | Some (v, r2) =>
                  match white r2 with
                  | c' :: r3 =>
                      if c' =? "}" then Some (VObj (assign k v acc), r3)
                      else if c' =? ","
                           then parse_members f (white r3) (assign k v acc)
                           else None
                  | [] => None
                  end
              | None => None
              end
            else None
        | [] => None
        end
    | None => None
    end.
Proof. destruct s; reflexivity. Qed.

Lemma parse_value_white f pre s :
  forallb is_white pre = true -> parse_value f (pre ++ s) = parse_value f s.
Proof.
  intros H. destruct f as [|f]; [reflexivity|].
  rewrite !parse_value_step, (white_app pre s H). reflexivity.
Qed.

Lemma parse_value_idem f s : parse_value f (white s) = parse_value f s.
Proof.
  destruct f as [|f]; [reflexivity|].
  rewrite !parse_value_step, white_idem. reflexivity.
Qed.

Lemma parse_elements_white g s acc :
  parse_elements g (white s) acc = parse_elements g s acc.
Proof.
  destruct g as [|g]; [reflexivity|].
  rewrite !parse_elements_step, parse_value_idem. reflexivity.
Qed.

Lemma dispatch_number f c r :
  c = "-" \/ is_digit c = true ->
  parse_value (S f) (c :: r) = parse_number (c :: r).
Proof.
  intros H. destruct H as [-> | H]; [reflexivity|].
  rewrite parse_value_step.
  rewrite (white_plain c r (start_not_white c (digit_start c H))).
  rewrite (digit_not c "{" eq_refl H), (digit_not c "[" eq_refl H),
    (digit_not c "034" eq_refl H), (digit_not c "-" eq_refl H), H.
  reflexivity.
Qed.

(** *** Documents *)

Lemma trail_white d : wf d = true -> forallb is_white (trail d) = true.
Proof.
  induction d using doc_induction; try reflexivity.
  cbn [wf trail]. intros H.
  apply andb_prop in H. destruct H as [H Hpost].
  apply andb_prop in H. destruct H as [_ Hd].
  rewrite forallb_app, (IHd Hd), Hpost. reflexivity.
Qed.

(** The first character of a document that is not a blank starts a value. *)
Lemma white_start d :
  wf d = true ->
  forall t, exists c tl, white (render d ++ t) = c :: tl /\ start_char c = true.
Proof.
  induction d using doc_induction; intros W t;
    try (eexists; eexists; split; reflexivity).
  - destruct (numeral_head n t (proj1 (numeral_wf_parts n W))) as (c & tl & E & Hc).
    cbn [render]. rewrite E. exists c, tl.
    assert (S0 : start_char c = true).
    { destruct Hc as [-> | Hc]; [reflexivity | apply digit_start, Hc]. }
    split; [apply white_plain, start_not_white, S0 | exact S0].
  - cbn [wf] in W.
    apply andb_prop in W. destruct W as [W _].
    apply andb_prop in W. destruct W as [Hpre Wd].
    cbn [render]. rewrite <- !app_assoc. rewrite (white_app pre _ Hpre).
    apply (IHd Wd).
Qed.

Lemma elements_parsed xs :
  Forall parsed xs ->
  forallb wf xs = true ->
  xs <> [] ->
  forall g acc rest,
    (S (List.length (sep_concat (map render xs))) < g)%nat ->
    parse_elements g (sep_concat (map render xs) ++ "]" :: rest) acc
    = Some (VArr (acc ++ map decoded xs), rest).
Proof.
  induction 1 as [|x r Hx Hr IH]; intros Hwf Hne g acc rest Hg; [contradiction|].
  simpl in Hwf. apply andb_prop in Hwf. destruct Hwf as [Wx Wr].
  destruct g as [|g]; [lia|].
  rewrite parse_elements_step.
  destruct r as [|y r'].
  - simpl in *.
    rewrite (Hx Wx g ("]" :: rest)) by (try reflexivity; lia).
    rewrite (white_then (trail x) "]" rest (trail_white x Wx) eq_refl).
    reflexivity.
  - change (sep_concat (map render (x :: y :: r')))
      with (render x ++ "," :: sep_concat (map render (y :: r'))) in *.
    rewrite <- app_assoc. cbn [app].
    rewrite length_app in Hg. cbn [List.length] in Hg.
    rewrite (Hx Wx g) by (try reflexivity; lia).
    rewrite (white_then (trail x) "," _ (trail_white x Wx) eq_refl).
    change ("," =? "]")%char with false. change ("," =? ",")%char with true.
    cbv iota.
    rewrite parse_elements_white.
    rewrite IH by (try assumption; try discriminate; lia).
    rewrite <- app_assoc. reflexivity.
Qed.

(** One member: its key, the colon, its value. *)
Lemma member_parsed m g tail :
  field_wf (fst m) = true ->
  wf (snd m) = true ->
  parsed (snd m) ->
  (List.length (render (snd m)) < g)%nat ->
  delim tail = true ->
  exists after_key,
    white (member_text render m ++ tail) = quote (name (fst m)) ++ after_key
    /\ parse_string (quote (name (fst m)) ++ after_key)
       = Some (key_of (fst m), after_key)
    /\ exists r1, white after_key = ":" :: r1
    /\ parse_value g r1 = Some (decoded (snd m), trail (snd m) ++ tail).
Proof.
  destruct m as [[bf nm af] d]. cbn [fst snd before name after].
  intros Wf Wd Hd Hg Ht.
  unfold field_wf in Wf. cbn [before name after] in Wf.
  apply andb_prop in Wf. destruct Wf as [Wf Waf].
  apply andb_prop in Wf. destruct Wf as [Wbf Wnm].
  exists (af ++ ":" :: render d ++ tail).
  unfold member_text. cbn [fst snd before name after].
  split; [|split].
  - rewrite <- !app_assoc. cbn [app].
    rewrite (white_app bf _ Wbf). unfold quote at 1. cbn [app].
    rewrite white_plain by reflexivity. unfold quote. cbn [app].
    rewrite <- !app_assoc. reflexivity.
  - apply (parse_string_quote nm _ Wnm).
  - exists (render d ++ tail). split.
    + apply white_then; [exact Waf | reflexivity].
    + apply Hd; assumption.
Qed.

Lemma members_parsed ms :
  Forall (fun m => parsed (snd m)) ms ->
  forallb (fun m => field_wf (fst m) && wf (snd m)) ms = true ->
  ms <> [] ->
  forall g acc rest,
    (S (List.length (sep_concat (map (member_text render) ms))) < g)%nat ->
    parse_members g (white (sep_concat (map (member_text render) ms) ++ "}" :: rest)) acc
    = Some (VObj (fold_left (fun o m => assign (key_of (fst m)) (decoded (snd m)) o)
                            ms acc), rest).
Proof.
  induction 1 as [|m r Hd Hr IH]; intros Hwf Hne g acc rest Hg; [contradiction|].
  cbn [forallb] in Hwf. apply andb_prop in Hwf. destruct Hwf as [Wm Wr].
  apply andb_prop in Wm. destruct Wm as [Wk Wd].
  destruct g as [|g]; [lia|].
  rewrite parse_members_step.
  assert (L : (List.length (render (snd m)) <= List.length (member_text render m))%nat).
  { unfold member_text. rewrite !length_app. cbn [List.length]. lia. }
  destruct r as [|m' r'].
  - cbn [map sep_concat] in *.
    destruct (member_parsed m g ("}" :: rest) Wk Wd Hd) as (ak & E1 & E2 & r1 & E3 & E4);
      [lia | reflexivity |].
    rewrite E1, E2, E3. change (":" =? ":")%char with true. cbv iota.
    rewrite E4.
    rewrite (white_then (trail (snd m)) "}" rest (trail_white _ Wd) eq_refl).
    reflexivity.
  - change (sep_concat (map (member_text render) (m :: m' :: r')))
      with (member_text render m
            ++ "," :: sep_concat (map (member_text render) (m' :: r'))) in *.
    rewrite length_app in Hg. cbn [List.length] in Hg.
    rewrite <- app_assoc. cbn [app].
    match goal with
    | |- context [white (member_text render m ++ ?t)] =>
        destruct (member_parsed m g t Wk Wd Hd) as (ak & E1 & E2 & r1 & E3 & E4);
          [lia | reflexivity |]
    end.
    rewrite E1, E2, E3. change (":" =? ":")%char with true. cbv iota.
    rewrite E4.
    rewrite (white_then (trail (snd m)) "," _ (trail_white _ Wd) eq_refl).
    change ("," =? "}")%char with false. change ("," =? ",")%char with true.
    cbv iota.
    rewrite IH by (try assumption; try discriminate; lia).
    reflexivity.
Qed.

Lemma sep_concat_cons (p : list ascii) (r : list (list ascii)) t :
  exists t', sep_concat (p :: r) ++ t = p ++ t'.
Proof.
  destruct r as [|q r].
  - exists t. reflexivity.
  - exists ("," :: sep_concat (q :: r) ++ t).
    change (sep_concat (p :: q :: r)) with (p ++ "," :: sep_concat (q :: r)).
    rewrite <- app_assoc. reflexivity.
Qed.

(** The parser reads back every well-formed document. *)
Lemma parse_value_render d : parsed d.
Proof.
  induction d as [| | |n|s|inner xs IH|inner ms IH|pre d post IH] using doc_induction;
    intros W fuel rest Hf Hr; (destruct fuel as [|f]; [lia|]).
  - apply (literal_word ["n"; "u"; "l"; "l"] VNull rest).
  - apply (literal_word ["t"; "r"; "u"; "e"] (VBool true) rest).
  - apply (literal_word ["f"; "a"; "l"; "s"; "e"] (VBool false) rest).
  - cbn [wf render trail app] in *.
    destruct (numeral_head n rest (proj1 (numeral_wf_parts n W))) as (c & tl & E & Hc).
    rewrite E, (dispatch_number f c tl Hc), <- E.
    apply parse_number_text; assumption.
  - cbn [wf render trail decoded app] in *.
    rewrite parse_value_step. unfold quote at 1. cbn [app].
    rewrite white_plain by reflexivity.
    change ("034" :: (str_text s ++ ["034"]) ++ rest) with (quote s ++ rest).
    cbv iota beta. change ("034" =? "{")%char with false.
    change ("034" =? "[")%char with false. change ("034" =? "034")%char with true.
    cbv iota. rewrite (parse_string_quote s rest W). reflexivity.
  - cbn [wf render trail decoded app] in *.
    apply andb_prop in W. destruct W as [Wi Wx].
    rewrite parse_value_step. rewrite white_plain by reflexivity.
    cbv iota beta. change ("[" =? "{")%char with false.
    change ("[" =? "[")%char with true. cbv iota.
    rewrite <- !app_assoc. rewrite (white_app inner _ Wi).
    destruct xs as [|x r].
    + reflexivity.
    + cbn [map]. 
      destruct (sep_concat_cons (render x) (map render r) ("]" :: rest)) as (t' & E').
      assert (Wx0 : wf x = true) by (simpl in Wx; apply andb_prop in Wx; tauto).
      destruct (white_start x Wx0 t') as (c & tl & E & Hs).
      cbn [app]. 
      change (sep_concat (render x :: map render r) ++ ["]"] ++ rest)
        with (sep_concat (render x :: map render r) ++ "]" :: rest).
      pose proof E' as E''. rewrite E' , E.
      assert (N : (c =? "]") = false).
      { destruct (Ascii.eqb_spec c "]") as [->|_]; [cbv in Hs; discriminate Hs | reflexivity]. }
      rewrite N. rewrite <- E, <- E'', parse_elements_white.
      cbn [List.length] in Hf. rewrite !length_app in Hf. cbn [List.length] in Hf.
      apply (elements_parsed (x :: r) IH Wx); [discriminate | lia].
  - cbn [wf render trail decoded app] in *.
    apply andb_prop in W. destruct W as [Wi Wm].
    rewrite parse_value_step. rewrite white_plain by reflexivity.
    cbv iota beta. change ("{" =? "{")%char with true. cbv iota.
    rewrite <- !app_assoc. rewrite (white_app inner _ Wi).
    destruct ms as [|m r].
    + reflexivity.
    + cbn [map].
      change (sep_concat (member_text render m :: map (member_text render) r)
              ++ ["}"] ++ rest)
        with (sep_concat (map (member_text render) (m :: r)) ++ "}" :: rest).
      cbn [List.length] in Hf. rewrite !length_app in Hf. cbn [List.length] in Hf.
      pose proof (members_parsed (m :: r) IH Wm) as M.
      specialize (M ltac:(discriminate) f [] rest ltac:(lia)).
      destruct (sep_concat_cons (member_text render m) (map (member_text render) r)
                  ("}" :: rest)) as (t' & E').
      assert (Q : exists tl, white (sep_concat (map (member_text render) (m :: r))
                                    ++ "}" :: rest) = "034" :: tl).
      { cbn [map]. rewrite E'. unfold member_text at 1.
        cbn [forallb] in Wm. apply andb_prop in Wm. destruct Wm as [Wm _].
        apply andb_prop in Wm. destruct Wm as [Wf _].
        unfold field_wf in Wf. apply andb_prop in Wf. destruct Wf as [Wf _].
        apply andb_prop in Wf. destruct Wf as [Wb _].
        rewrite <- !app_assoc. rewrite (white_app _ _ Wb).
        unfold quote. cbn [app]. eexists. reflexivity. }
      destruct Q as (tl & Q). rewrite Q in *.
      change ("034" =? "}")%char with false. cbv iota. exact M.
  - cbn [wf render trail decoded] in *.
    apply andb_prop in W. destruct W as [W Wpost].
    apply andb_prop in W. destruct W as [Wpre Wd].
    rewrite <- !app_assoc. rewrite (parse_value_white _ pre _ Wpre).
    rewrite !length_app in Hf.
    apply (IH Wd); [lia | apply delim_pad; assumption].
Qed.

(** *** Whole-number literals *)

Lemma digit_val_range c : is_digit c = true -> 0 <= digit_val c <= 9.
Proof.
  unfold is_digit, digit_val. intros H. apply andb_prop in H. destruct H as [H1 H2].
  apply Nat.leb_le in H1, H2. lia.
Qed.

Lemma digits_val_snoc ds c : digits_val (ds ++ [c]) = 10 * digits_val ds + digit_val c.
Proof. unfold digits_val. rewrite fold_left_app. reflexivity. Qed.

Lemma digits_val_bound ds :
  forallb is_digit ds = true ->
  0 <= digits_val ds < 10 ^ Z.of_nat (List.length ds).
Proof.
  induction ds as [|c ds IH] using rev_ind; intros H.
  - cbn. lia.
  - rewrite forallb_app in H. apply andb_prop in H. destruct H as [Hd Hc].
    simpl in Hc. rewrite andb_true_r in Hc.
    rewrite digits_val_snoc, length_app. cbn [List.length].
    rewrite Nat2Z.inj_add, Z.pow_add_r by lia.
    pose proof (digit_val_range c Hc). specialize (IH Hd).
    change (Z.of_nat 1) with 1. rewrite Z.pow_1_r. lia.
Qed.

Lemma int_text_numeral neg ds : numeral_text (integer neg ds) = int_text neg ds.
Proof.
  unfold numeral_text, integer, int_text. cbn. rewrite !app_nil_r.
  destruct neg; reflexivity.
Qed.

Lemma integer_shape neg ds :
  ds <> [] ->
  forallb is_digit ds = true ->
  numeral_shape (integer neg ds) = true /\ numeric (integer neg ds) = true.
Proof.
  intros Hne Hd. unfold numeral_shape, integer, numeric, fraction_digits.
  cbn [negative int_digits fraction exponent exponent_wf forallb].
  rewrite Hd. destruct ds as [|c ds]; [contradiction|]. cbn [nonempty].
  rewrite orb_true_r. split; reflexivity.
Qed.

Lemma integer_finite neg ds :
  finite (integer neg ds) = (digits_val ds <? OVERFLOW)%Z.
Proof.
  unfold finite, integer, mantissa, scale, fraction_digits.
  cbn [negative int_digits fraction exponent]. rewrite app_nil_r.
  cbn [List.length Z.of_nat]. change (0 - 0) with 0.
  change (0 <=? 0)%Z with true. cbv iota.
  change (10 ^ 0) with 1. rewrite Z.mul_1_r. reflexivity.
Qed.

Lemma integer_wf neg ds :
  ds <> [] ->
  forallb is_digit ds = true ->
  digits_val ds < OVERFLOW ->
  numeral_wf (integer neg ds) = true.
Proof.
  intros Hne Hd Hfin. unfold numeral_wf.
  destruct (integer_shape neg ds Hne Hd) as [-> ->].
  rewrite integer_finite. apply Z.ltb_lt in Hfin. rewrite Hfin. reflexivity.
Qed.

Lemma integer_to_number neg ds :
  forallb is_digit ds = true ->
  (List.length (int_text neg ds) <= 15)%nat ->
  to_number (integer neg ds) = VNum (int_value neg ds).
Proof.
  intros Hd Hl. unfold to_number, whole, integer, mantissa, scale, fraction_digits.
  cbn [negative int_digits fraction exponent].
  rewrite app_nil_r. cbn [List.length Z.of_nat].
  change (0 - 0) with 0. change (0 <=? 0)%Z with true. cbv iota.
  change (10 ^ 0) with 1. rewrite Z.mul_1_r.
  pose proof (digits_val_bound ds Hd) as B.
  assert (L : (List.length ds <= 15)%nat).
  { unfold int_text in Hl. destruct neg; cbn [List.length] in Hl; lia. }
  assert (P : 10 ^ Z.of_nat (List.length ds) <= 10 ^ 15)
    by (apply Z.pow_le_mono_r; lia).
  assert (P15 : 10 ^ 15 < 2 ^ 53) by reflexivity.
  replace (digits_val ds <=? 2 ^ 53)%Z with true
    by (symmetry; apply Z.leb_le; lia).
  reflexivity.
Qed.

End ParseFacts.

(** ** The signing interceptor and the constructor against the specification *)

Module Spec.
Import Js Run TikTokAPI ObjFacts SignFacts.

(** C1.  A run of [signRequest] that completes successfully hands on a
    configuration whose [params] is the empty object and whose [url] is the
    value that the one call of the signer delegate gave. *)
Theorem signing_complete this cfg w out w' :
  signRequest this cfg w = (Returned (Fulfilled out), w') ->
  obj_get "params" out = Some (VObj [])
  /\ exists sid args r u,
       prop (config this) "signURL" = VFun sid
       /\ signer_calls w w' = [EvCall "this.config.signURL" sid args (Returned r)]
       /\ settled r = Some u
       /\ obj_get "url" out = Some u.
Proof.
  intros H.
  destruct (fulfilled_run _ _ _ _ _ H)
    as (ser & q & dev & sid & r & u & Hs & Hc & Hm & Hu & Hr & Hv & -> & ->).
  split; [apply signed_config_params|].
  exists sid, (signer_args cfg w q dev), r, u.
  repeat split; auto using signed_config_url.
  unfold signer_calls. rewrite emitted_after.
  unfold prologue, signing. rewrite Hr. reflexivity.
Qed.

Lemma signing_complete_witness :
  exists out w',
    signRequest Sample.api Sample.request_config Sample.world
    = (Returned (Fulfilled out), w')
    /\ obj_get "params" out = Some (VObj [])
    /\ obj_get "url" out
       = Some (VStr ("https://api2.musical.ly/aweme/v1/room/enter/"
                     ++ "?ts=1541000000&room_id=9&_rticket=1541000001001"
                     ++ "&as=a1&cp=b2")).
Proof.
  eexists; eexists. split; [reflexivity|].
  split.
  - eapply (signing_complete Sample.api Sample.request_config Sample.world).
    reflexivity.
  - reflexivity.
Defined.

(** C2.  The constructor throws at once when [apiConfig.signURL] is not a
    function: the error is thrown at the caller and nothing was created or
    called (the world is as it was); when it is a function the constructor
    returns the client, whose configuration holds that signer. *)
Theorem constructor_guard b reqParams apiConfig requestConfig w :
  (is_function (prop apiConfig "signURL") = false ->
     constructor b reqParams apiConfig requestConfig w
     = (Thrown (Error "You must supply a signURL function to the TikTokAPI config"), w))
  /\ (is_function (prop apiConfig "signURL") = true ->
      exists cl w',
        constructor b reqParams apiConfig requestConfig w = (Returned cl, w')
        /\ prop (config cl) "signURL" = prop apiConfig "signURL").
Proof.
  unfold constructor. split; intros H; rewrite H; cbn [negb].
  - reflexivity.
  - eexists; eexists. split; [reflexivity|]. cbn [config].
    unfold client_config, prop in *.
    rewrite obj_get_lit, obj_get_app. cbn [own_props].
    rewrite obj_get_lit.
    destruct (obj_get "signURL" apiConfig); [reflexivity | discriminate H].
Qed.

Lemma constructor_guard_witness :
  fst (constructor Sample.functions Sample.reqParams [("signURL", VStr "sign")]
         VUndefined Sample.world)
  = Thrown (Error "You must supply a signURL function to the TikTokAPI config")
  /\ prop (config Sample.api) "signURL" = VFun 2.
Proof.
  split.
  - rewrite (proj1 (constructor_guard Sample.functions Sample.reqParams
                      [("signURL", VStr "sign")] VUndefined Sample.world));
      reflexivity.
  - destruct (proj2 (constructor_guard Sample.functions Sample.reqParams
                       Sample.apiConfig VUndefined Sample.world) eq_refl)
      as (cl & w' & E & _).
    reflexivity.
Defined.

(** C3.  Whatever [signRequest] serializes is a parameter set to which it
    has added [ts], the clock in whole seconds (the floor of the milliseconds
    over 1000), and [_rticket], the clock in milliseconds, the other
    parameters being those of the request; and a request that has a
    serializer is serialized, once, after the two readings of the clock. *)
Theorem freshness_injected this cfg w :
  (forall f args r,
     In (EvCall "config.paramsSerializer" f args r)
        (emitted w (snd (signRequest this cfg w))) ->
     exists p,
       args = [VObj p] /\ uniq p
       /\ obj_get "ts" p = Some (VNum (clock w (reads w) / 1000))
       /\ obj_get "_rticket" p = Some (VNum (clock w (S (reads w))))
       /\ forall k, k <> "ts" -> k <> "_rticket" ->
                    obj_get k p = obj_get k (own_props (prop cfg "params")))
  /\ (forall ser,
        prop cfg "paramsSerializer" = VFun ser ->
        exists p r rest,
          emitted w (snd (signRequest this cfg w))
          = EvNow (clock w (reads w)) :: EvNow (clock w (S (reads w)))
            :: EvCall "config.paramsSerializer" ser [VObj p] r :: rest
          /\ forallb (fun e => negb (is_serialization e)) rest = true).
Proof.
  split.
  - intros f args r H.
    destruct (serialization_event _ _ _ _ _ _ H) as (_ & -> & _).
    exists (serialized_params cfg w). unfold serialized_params.
    repeat split.
    + apply uniq_lit.
    + apply fresh_params_ts.
    + apply fresh_params_rticket.
    + intros k H1 H2. apply fresh_params_other; assumption.
  - intros ser Hs.
    destruct (serialization_happens this cfg w ser Hs) as (rest & E & Hr).
    exists (serialized_params cfg w),
           (call (code w ser) [VObj (serialized_params cfg w)]), rest.
    split; [exact E | exact Hr].
Qed.

Lemma freshness_injected_witness :
  exists p,
    In (EvCall "config.paramsSerializer" 1 [VObj p]
               (Returned (Plain (VStr "ts=1541000000&room_id=9&_rticket=1541000001001"))))
       (emitted Sample.world
                (snd (signRequest Sample.api Sample.request_config Sample.world)))
    /\ obj_get "ts" p = Some (VNum 1541000000)
    /\ obj_get "_rticket" p = Some (VNum 1541000001001).
Proof.
  eexists. split.
  - right; right; left. reflexivity.
  - destruct (proj1 (freshness_injected Sample.api Sample.request_config Sample.world)
                1%nat _ _ (or_intror (or_intror (or_introl eq_refl))))
      as (p & E & _ & Hts & Hrt & _).
    injection E as <-. split; [exact Hts | exact Hrt].
Defined.

(** C4, as the code has it.  When the request has a serializer that
    returns, the client's default parameters are there to read [device_id]
    from and its [signURL] is a function, the signer is called exactly once:
    with the canonical URL ([baseURL], the path, a question mark and the
    serialized parameters), with the [ts] that was put into the parameters,
    and with the [device_id] of the default parameters. *)
Theorem signer_called_once this cfg w ser q dev sid :
  prop cfg "paramsSerializer" = VFun ser ->
  call (code w ser) [VObj (serialized_params cfg w)] = Returned q ->
  member (prop (request_defaults this) "params") "device_id" = Returned dev ->
  prop (config this) "signURL" = VFun sid ->
  exists r,
    signer_calls w (snd (signRequest this cfg w))
    = [EvCall "this.config.signURL" sid
              [VStr (to_string (prop cfg "baseURL") ++ to_string (prop cfg "url")
                     ++ "?" ++ result_to_string q);
               VNum (clock w (reads w) / 1000);
               dev] r]
    /\ obj_get "ts" (serialized_params cfg w) = Some (VNum (clock w (reads w) / 1000))
    /\ forall dp, prop (request_defaults this) "params" = VObj dp ->
                  dev = prop dp "device_id".
Proof.
  intros Hs Hc Hm Hu.
  rewrite (signer_called this cfg w ser q dev sid Hs Hc Hm Hu). cbn [snd].
  exists (call (code w sid) (signer_args cfg w q dev)).
  repeat split.
  - unfold signer_calls. rewrite emitted_after. reflexivity.
  - apply fresh_params_ts.
  - intros dp Hd. rewrite Hd in Hm. injection Hm as <-. reflexivity.
Qed.

Lemma signer_called_once_witness :
  exists r,
    signer_calls Sample.world
                 (snd (signRequest Sample.api Sample.request_config Sample.world))
    = [EvCall "this.config.signURL" 2
              [VStr ("https://api2.musical.ly/aweme/v1/room/enter/"
                     ++ "?ts=1541000000&room_id=9&_rticket=1541000001001");
               VNum 1541000000;
               VStr "6000000000000000001"] r].
Proof.
  destruct (signer_called_once Sample.api Sample.request_config Sample.world
              1%nat _ _ 2%nat eq_refl eq_refl eq_refl eq_refl) as (r & E & _).
  exists r. exact E.
Defined.

(** C4, as it was written, fails on a request that has no serializer: the
    signer is not called at all. *)
Lemma signer_not_called_without_serializer :
  List.length (signer_calls Sample.world
                 (snd (signRequest Sample.api Sample.bare_config Sample.world)))
  <> 1%nat.
Proof. vm_compute. discriminate. Qed.

(** C5, as the code has it.  Without a [paramsSerializer] function the
    call returns a promise that is already rejected with the configuration
    error; nothing is thrown at the caller ([signRequest] is [async]).  The
    clock was not read, neither the serializer nor the signer was called, and
    no configuration is handed on to be sent. *)
Theorem missing_serializer_rejects this cfg w :
  is_function (prop cfg "paramsSerializer") = false ->
  fst (signRequest this cfg w)
  = Returned (Rejected (Error "Missing required paramsSerializer function"))
  /\ thrown_synchronously (fst (signRequest this cfg w)) = false
  /\ snd (signRequest this cfg w) = w
  /\ emitted w (snd (signRequest this cfg w)) = []
  /\ signer_calls w (snd (signRequest this cfg w)) = [].
Proof.
  intros H. rewrite (guard_fails this cfg w H). cbn [fst snd].
  unfold signer_calls, emitted. rewrite skipn_all. repeat split.
Qed.

Lemma missing_serializer_rejects_witness :
  snd (signRequest Sample.api Sample.bare_config Sample.world) = Sample.world.
Proof.
  apply (missing_serializer_rejects Sample.api Sample.bare_config Sample.world).
  reflexivity.
Defined.

(** C5, as it was written, fails: the error of a request without a
    serializer is not thrown synchronously, it is the rejection of the
    promise that [signRequest] returns. *)
Lemma missing_serializer_not_thrown :
  is_function (prop Sample.bare_config "paramsSerializer") = false
  /\ thrown_synchronously
       (fst (signRequest Sample.api Sample.bare_config Sample.world)) = false.
Proof. split; reflexivity. Qed.

(** C8.  Under a wall clock that never goes back, of two requests that the
    same client signs one after the other (the second run starts once the
    first is over, however many readings of the clock later), the [ts] put
    into the second is not before the [ts] put into the first. *)
Theorem freshness_monotone this cfg1 cfg2 w w2 f1 p1 r1 f2 p2 r2 ts1 ts2 :
  non_decreasing (clock w) ->
  (forall i, clock w2 i = clock w i) ->
  (reads (snd (signRequest this cfg1 w)) <= reads w2)%nat ->
  In (EvCall "config.paramsSerializer" f1 [VObj p1] r1)
     (emitted w (snd (signRequest this cfg1 w))) ->
  In (EvCall "config.paramsSerializer" f2 [VObj p2] r2)
     (emitted w2 (snd (signRequest this cfg2 w2))) ->
  obj_get "ts" p1 = Some (VNum ts1) ->
  obj_get "ts" p2 = Some (VNum ts2) ->
  ts1 <= ts2.
Proof.
  intros Hmono Hclk Hlater H1 H2 G1 G2.
  destruct (serialization_event _ _ _ _ _ _ H1) as (_ & E1 & R1).
  destruct (serialization_event _ _ _ _ _ _ H2) as (_ & E2 & _).
  injection E1 as ->. injection E2 as ->.
  unfold serialized_params in G1, G2.
  rewrite fresh_params_ts in G1, G2.
  injection G1 as <-. injection G2 as <-.
  unfold seconds, first_reading. rewrite Hclk.
  apply Z.div_le_mono; [lia|].
  apply Hmono. rewrite R1 in Hlater. lia.
Qed.

Lemma wall_clock_non_decreasing : non_decreasing Sample.wall_clock.
Proof.
  intros i j H.
  destruct i as [|[|[|i]]]; destruct j as [|[|[|j]]]; simpl; lia.
Qed.

Lemma freshness_monotone_witness :
  seconds (first_reading Sample.world)
  <= seconds (first_reading
                (snd (signRequest Sample.api Sample.request_config Sample.world))).
Proof.
  apply (freshness_monotone Sample.api Sample.request_config Sample.request_config
           Sample.world
           (snd (signRequest Sample.api Sample.request_config Sample.world))
           1%nat (serialized_params Sample.request_config Sample.world)
           (Returned (Plain (VStr "ts=1541000000&room_id=9&_rticket=1541000001001")))
           1%nat
           (serialized_params Sample.request_config
              (snd (signRequest Sample.api Sample.request_config Sample.world)))
           (Returned (Plain (VStr "ts=1541000001&room_id=9&_rticket=1541000002000")))).
  - exact wall_clock_non_decreasing.
  - reflexivity.
  - simpl. lia.
  - right; right; left. reflexivity.
  - right; right; left. reflexivity.
  - reflexivity.
  - reflexivity.
Defined.

(** C9.  A [ts] or [_rticket] that the caller put into the parameters of
    the request does not reach the serializer: what is serialized is an
    object whose only [ts] and [_rticket] are the fresh ones. *)
Theorem fresh_fields_win this cfg w k old f args r :
  k = "ts" \/ k = "_rticket" ->
  obj_get k (own_props (prop cfg "params")) = Some old ->
  In (EvCall "config.paramsSerializer" f args r)
     (emitted w (snd (signRequest this cfg w))) ->
  exists p,
    args = [VObj p]
    /\ (forall v, In ("ts", v) p -> v = VNum (clock w (reads w) / 1000))
    /\ (forall v, In ("_rticket", v) p -> v = VNum (clock w (S (reads w))))
    /\ obj_get "ts" p = Some (VNum (clock w (reads w) / 1000))
    /\ obj_get "_rticket" p = Some (VNum (clock w (S (reads w)))).
Proof.
  intros _ _ H.
  destruct (serialization_event _ _ _ _ _ _ H) as (_ & -> & _).
  exists (serialized_params cfg w). unfold serialized_params.
  assert (U : uniq (fresh_params (prop cfg "params")
                      (seconds (first_reading w)) (second_reading w)))
    by apply uniq_lit.
  repeat split.
  - intros v Hv. apply (uniq_In_get _ _ _ U) in Hv.
    rewrite fresh_params_ts in Hv. injection Hv as <-. reflexivity.
  - intros v Hv. apply (uniq_In_get _ _ _ U) in Hv.
    rewrite fresh_params_rticket in Hv. injection Hv as <-. reflexivity.
  - apply fresh_params_ts.
  - apply fresh_params_rticket.
Qed.

Lemma fresh_fields_win_witness :
  obj_get "ts" (own_props (prop Sample.request_config "params")) = Some (VNum 5)
  /\ exists p,
       In (EvCall "config.paramsSerializer" 1 [VObj p]
                  (Returned (Plain (VStr "ts=1541000000&room_id=9&_rticket=1541000001001"))))
          (emitted Sample.world
                   (snd (signRequest Sample.api Sample.request_config Sample.world)))
       /\ obj_get "ts" p = Some (VNum 1541000000).
Proof.
  split; [reflexivity|].
  eexists. split.
  - right; right; left. reflexivity.
  - destruct (fresh_fields_win Sample.api Sample.request_config Sample.world
                "ts" (VNum 5) 1%nat _ _ (or_introl eq_refl) eq_refl
                (or_intror (or_intror (or_introl eq_refl))))
      as (p & E & _ & _ & Hts & _).
    injection E as <-. exact Hts.
Defined.

(** C10.  A run that completes hands on a configuration that differs from
    the one it was given in [url] and [params] only: every other field
    has the value it had. *)
Theorem signing_frame this cfg w out w' :
  signRequest this cfg w = (Returned (Fulfilled out), w') ->
  forall k, k <> "url" -> k <> "params" -> obj_get k out = obj_get k cfg.
Proof.
  intros H k H1 H2.
  destruct (fulfilled_run _ _ _ _ _ H)
    as (ser & q & dev & sid & r & u & _ & _ & _ & _ & _ & _ & -> & _).
  apply signed_config_other; assumption.
Qed.

Lemma signing_frame_witness :
  exists out w',
    signRequest Sample.api Sample.request_config Sample.world
    = (Returned (Fulfilled out), w')
    /\ obj_get "paramsSerializer" out = Some (VFun 1)
    /\ obj_get "method" out = Some (VStr "get").
Proof.
  eexists; eexists. split; [reflexivity|]. split.
  - rewrite (signing_frame Sample.api Sample.request_config Sample.world _ _
               eq_refl "paramsSerializer"); [reflexivity | discriminate | discriminate].
  - reflexivity.
Defined.

End Spec.

(** ** The response decoder against the specification *)

Module Decoder.
Import Js Run TikTokAPI.

(** C7.  An empty body and a body of length zero come back as they are:
    the result is the body itself, returned and not thrown, and it does not
    depend on the parser, which is not reached. *)
Theorem empty_body_passthrough w data :
  empty_body data \/ zero_length w data ->
  transformResponse w data = Returned data
  /\ thrown_synchronously (transformResponse w data) = false.
Proof.
  intros H.
  assert (E : transformResponse w data = Returned data).
  { unfold transformResponse.
    unfold empty_body in H.
    destruct H as [[ -> | [ -> | -> ]] | H]; try reflexivity.
    unfold zero_length in H. rewrite H. cbn [truthy Z.eqb negb].
    rewrite orb_true_r. reflexivity. }
  rewrite E. repeat split.
Qed.

Lemma empty_body_passthrough_witness :
  transformResponse Sample.world (VStr "") = Returned (VStr "")
  /\ transformResponse Sample.world (VArr []) = Returned (VArr []).
Proof.
  split.
  - apply (empty_body_passthrough Sample.world (VStr "")).
    left. right. right. reflexivity.
  - apply (empty_body_passthrough Sample.world (VArr [])).
    right. reflexivity.
Defined.

(** C6, as the code has it.  A body that is a JSON document, whatever its
    layout, is parsed, and what comes out is the document with every number
    literal of more than 15 characters as its own text and every other one as
    a number.  For a whole-number literal within the doubles, wherever it
    stands and whatever closes it: it is handed back as its text when the
    text, sign included, is longer than 15 characters and as the number it
    writes otherwise; a literal outside the integers that the native number
    type holds exactly is always that long, so it is kept as its text.  A
    whole-number literal beyond the doubles is refused.  And in any body at
    all, what [number()] hands back is decided by the length of the text it
    has read.  So [123456789012345678] comes out as the string of its digits
    and [42] as the number. *)
Theorem long_literals_kept w :
  (forall d,
     JSONBig.wf d = true ->
     transformResponse w (VStr (string_of_list_ascii (JSONBig.render d)))
     = Returned (JSONBig.decoded d))
  /\ (forall neg ds,
        ds <> [] ->
        forallb JSONBig.is_digit ds = true ->
        JSONBig.digits_val ds < JSONBig.OVERFLOW ->
        let text := JSONBig.int_text neg ds in
        let n := JSONBig.int_value neg ds in
        let v := if (15 <? List.length text)%nat
                 then VStr (string_of_list_ascii text) else VNum n in
        JSONBig.render (JSONBig.DNum (JSONBig.integer neg ds)) = text
        /\ JSONBig.wf (JSONBig.DNum (JSONBig.integer neg ds)) = true
        /\ JSONBig.decoded (JSONBig.DNum (JSONBig.integer neg ds)) = v
        /\ (forall rest,
              JSONBig.delim rest = true ->
              JSONBig.parse_number (text ++ rest) = Some (v, rest))
        /\ (n < - (2 ^ 53 - 1) \/ 2 ^ 53 - 1 < n ->
            v = VStr (string_of_list_ascii text)))
  /\ (forall neg ds rest,
        ds <> [] ->
        forallb JSONBig.is_digit ds = true ->
        JSONBig.OVERFLOW <= JSONBig.digits_val ds ->
        JSONBig.delim rest = true ->
        JSONBig.parse_number (JSONBig.int_text neg ds ++ rest) = None)
  /\ (forall s v rest,
        JSONBig.parse_number s = Some (v, rest) ->
        exists n,
          s = (JSONBig.numeral_text n ++ rest)%list
          /\ v = if (15 <? List.length (JSONBig.numeral_text n))%nat
                 then VStr (string_of_list_ascii (JSONBig.numeral_text n))
                 else JSONBig.to_number n)
  /\ transformResponse w (VStr Sample.body_id)
     = Returned (VObj [("id", VStr "123456789012345678")])
  /\ transformResponse w (VStr Sample.body_count)
     = Returned (VObj [("count", VNum 42)]).
Proof.
  split; [|split; [|split; [|split; [|split; reflexivity]]]].
  - intros d W.
    destruct (JSONBig.render d) as [|c tl] eqn:E.
    { destruct (ParseFacts.white_start d W []) as (c & tl & E' & _).
      rewrite E in E'. discriminate E'. }
    unfold transformResponse.
    cbn [string_of_list_ascii truthy length_of String.eqb String.length negb orb].
    rewrite Nat2Z.inj_succ.
    destruct (Z.eqb_spec (Z.succ (Z.of_nat (String.length (string_of_list_ascii tl)))) 0)
      as [Hz|_]; [lia|].
    cbn [negb orb]. unfold JSONBig.parse, JSONBig.parse_text. cbn [to_string].
    change (String c (string_of_list_ascii tl)) with (string_of_list_ascii (c :: tl)).
    rewrite list_ascii_of_string_of_list_ascii, <- E.
    rewrite <- (app_nil_r (JSONBig.render d)) at 2.
    rewrite (ParseFacts.parse_value_render d W) by (try reflexivity; lia).
    rewrite app_nil_r, (ParseFacts.white_all _ (ParseFacts.trail_white d W)).
    reflexivity.
  - intros neg ds Hne Hd Hfin text n v.
    pose proof (ParseFacts.integer_wf neg ds Hne Hd Hfin) as W.
    pose proof (ParseFacts.int_text_numeral neg ds) as T.
    assert (D : JSONBig.decoded (JSONBig.DNum (JSONBig.integer neg ds)) = v).
    { cbn [JSONBig.decoded]. rewrite T. fold text. unfold v.
      destruct (Nat.ltb_spec 15 (List.length text)) as [L|L]; [reflexivity|].
      apply ParseFacts.integer_to_number; [exact Hd | exact L]. }
    split; [exact T|]. split; [exact W|]. split; [exact D|]. split.
    + intros rest Hr. rewrite <- D. unfold text. rewrite <- T.
      apply ParseFacts.parse_number_text; assumption.
    + intros Hout. unfold v.
      destruct (Nat.ltb_spec 15 (List.length text)) as [L|L]; [reflexivity|].
      exfalso.
      pose proof (ParseFacts.digits_val_bound ds Hd) as B.
      assert (Lds : (List.length ds <= 15)%nat).
      { unfold text, JSONBig.int_text in L. destruct neg; cbn [List.length] in L; lia. }
      assert (P : 10 ^ Z.of_nat (List.length ds) <= 10 ^ 15)
        by (apply Z.pow_le_mono_r; lia).
      assert (P15 : 10 ^ 15 < 2 ^ 53 - 1) by reflexivity.
      unfold n, JSONBig.int_value in Hout. destruct neg; lia.
  - intros neg ds rest Hne Hd Hbig Hr.
    rewrite <- ParseFacts.int_text_numeral.
    apply ParseFacts.parse_number_overflow; [| |exact Hr].
    + apply (ParseFacts.integer_shape neg ds Hne Hd).
    + rewrite ParseFacts.integer_finite. apply Z.ltb_ge, Hbig.
  - intros s v rest H.
    destruct (ParseFacts.parse_number_reads s v rest H) as (n & E & _ & D).
    exists n. split; [exact E | exact D].
Qed.

Lemma long_literals_kept_witness :
  string_of_list_ascii (JSONBig.render Sample.doc_compact) = Sample.body_compact
  /\ transformResponse Sample.world (VStr Sample.body_compact)
     = Returned (VObj [("id", VNum 1)])
  /\ string_of_list_ascii (JSONBig.render Sample.doc_layout) = Sample.body_layout
  /\ transformResponse Sample.world (VStr Sample.body_layout)
     = Returned
         (VObj [("id", VNum 1);
                ("big", VArr [VStr "-100000000000000"; VFloat "2.50"; VNum 1000]);
                ("a" ++ Sample.nl ++ "b", VStr "A")])
  /\ JSONBig.parse_number (list_ascii_of_string "9007199254740992}")
     = Some (VStr "9007199254740992", list_ascii_of_string "}")
  /\ JSONBig.parse_number (list_ascii_of_string "-42 ,7")
     = Some (VNum (-42), list_ascii_of_string " ,7")
  /\ JSONBig.parse_number (Sample.nines ++ list_ascii_of_string "]") = None.
Proof.
  split; [reflexivity|]. split; [|split; [reflexivity|split; [|split; [|split]]]].
  - apply (proj1 (long_literals_kept Sample.world) Sample.doc_compact).
    reflexivity.
  - apply (proj1 (long_literals_kept Sample.world) Sample.doc_layout).
    reflexivity.
  - destruct (proj1 (proj2 (long_literals_kept Sample.world))
                false (list_ascii_of_string "9007199254740992"))
      as (_ & _ & _ & P & _); [discriminate | reflexivity | reflexivity |].
    apply (P (list_ascii_of_string "}")). reflexivity.
  - destruct (proj1 (proj2 (long_literals_kept Sample.world))
                true (list_ascii_of_string "42"))
      as (_ & _ & _ & P & _); [discriminate | reflexivity | reflexivity |].
    apply (P (list_ascii_of_string " ,7")). reflexivity.
  - apply (proj1 (proj2 (proj2 (long_literals_kept Sample.world))) false Sample.nines).
    + discriminate.
    + reflexivity.
    + vm_compute. discriminate.
    + reflexivity.
Defined.

(** C6, as it was written, fails on a whole number within the integers
    that the native number type holds exactly and written with 16 digits: it
    is handed back as its text, not as a number. *)
Lemma in_range_integer_kept_as_text :
  - (2 ^ 53 - 1) <= 9007199254740991 <= 2 ^ 53 - 1
  /\ transformResponse Sample.world (VStr Sample.body_max)
     = Returned (VObj [("id", VStr "9007199254740991")]).
Proof. split; [split; discriminate | reflexivity]. Qed.

End Decoder.

(** ** The order of the keys of an object *)

Module KeyFacts.
Import Js Run TikTokAPI ObjFacts.
Local Open Scope list_scope.

Lemma has_key_In k ks : has_key k ks = true <-> In k ks.
Proof.
  unfold has_key. rewrite existsb_exists. split.
  - intros (x & Hx & E). apply String.eqb_eq in E. subst. exact Hx.
  - intros H. exists k. split; [exact H | apply String.eqb_refl].
Qed.

Lemma has_key_not_In k ks : has_key k ks = false <-> ~ In k ks.
Proof.
  rewrite <- has_key_In. destruct (has_key k ks); split; congruence.
Qed.

Lemma keys_after_set k v o : keys (obj_set k v o) = add_key k (keys o).
Proof.
  unfold keys, add_key, has_key.
  induction o as [|[k' v'] r IH]; simpl; [reflexivity|].
  destruct (String.eqb_spec k k'); simpl; [reflexivity|].
  rewrite IH. destruct (existsb (String.eqb k) (map fst r)); reflexivity.
Qed.

Lemma keys_define defs : forall acc,
  keys (fold_left (fun o d => obj_set (fst d) (snd d) o) defs acc)
  = merge_keys (keys acc) (map fst defs).
Proof.
  unfold merge_keys.
  induction defs as [|d ds IH]; simpl; intros acc; [reflexivity|].
  rewrite IH, keys_after_set. reflexivity.
Qed.

Lemma keys_obj_lit defs : keys (obj_lit defs) = merge_keys [] (map fst defs).
Proof. apply (keys_define defs []). Qed.

Lemma merge_keys_app ks a b :
  merge_keys ks (a ++ b) = merge_keys (merge_keys ks a) b.
Proof. unfold merge_keys. apply fold_left_app. Qed.

Lemma merge_keys_fresh new : forall ks,
  NoDup (ks ++ new) -> merge_keys ks new = ks ++ new.
Proof.
  unfold merge_keys.
  induction new as [|k new IH]; simpl; intros ks H.
  - symmetry. apply app_nil_r.
  - assert (Hk : has_key k ks = false).
    { apply has_key_not_In. intros I.
      apply NoDup_remove_2 in H. apply H, in_or_app. left. exact I. }
    unfold add_key. rewrite Hk.
    rewrite IH; rewrite <- app_assoc; [reflexivity | exact H].
Qed.

Lemma merge_keys_absorb new : forall ks,
  (forall k, In k new -> In k ks) -> merge_keys ks new = ks.
Proof.
  unfold merge_keys.
  induction new as [|k new IH]; simpl; intros ks H; [reflexivity|].
  unfold add_key. rewrite (proj2 (has_key_In k ks)) by auto.
  apply IH. auto.
Qed.

(** Defining properties never moves or removes a key that was there: the
    new keys come after, each once. *)
Lemma merge_keys_extends new : forall ks,
  NoDup ks ->
  exists extra,
    merge_keys ks new = ks ++ extra
    /\ NoDup (ks ++ extra)
    /\ forall k, In k extra <-> In k new /\ ~ In k ks.
Proof.
  unfold merge_keys.
  induction new as [|k new IH]; simpl; intros ks N.
  - exists []. rewrite app_nil_r. split; [reflexivity|]. split; [exact N|].
    simpl. tauto.
  - unfold add_key. destruct (has_key k ks) eqn:Hk.
    + apply has_key_In in Hk.
      destruct (IH ks N) as (extra & E & N' & M).
      exists extra. split; [exact E|]. split; [exact N'|].
      intros x. rewrite M. split; [tauto|].
      intros [[<-|I] J]; [contradiction | tauto].
    + apply has_key_not_In in Hk.
      assert (N1 : NoDup (ks ++ [k])).
      { apply NoDup_app; [exact N | constructor; [intros [] | constructor] |].
        intros x Hx [<-|[]]. contradiction. }
      destruct (IH (ks ++ [k]) N1) as (extra & E & N' & M).
      exists (k :: extra). rewrite <- app_assoc in E, N'.
      split; [exact E|]. split; [exact N'|].
      intros x. simpl. rewrite M, in_app_iff. simpl.
      destruct (string_dec k x) as [<-|Hne]; tauto.
Qed.

Lemma obj_get_head k v r k' :
  k' <> k -> obj_get k' ((k, v) :: r) = obj_get k' r.
Proof.
  intros Hne. simpl. destruct (obj_get k' r); [reflexivity|].
  destruct (String.eqb_spec k' k); [contradiction | reflexivity].
Qed.

(** Two objects with the same keys in the same order and the same value
    under every key are the same object. *)
Lemma obj_ext (a : obj) : forall b : obj,
  uniq a -> uniq b -> keys a = keys b ->
  (forall k, obj_get k a = obj_get k b) -> a = b.
Proof.
  unfold uniq, keys.
  induction a as [|[k v] a IH]; intros [|[k' v'] b] Ua Ub K G; try discriminate K.
  - reflexivity.
  - simpl in K. injection K as <- K.
    inversion Ua as [|? ? Na Ua']; inversion Ub as [|? ? Nb Ub']; subst.
    assert (E := G k). simpl in E.
    rewrite (obj_get_absent k a Na), (obj_get_absent k b Nb), String.eqb_refl in E.
    injection E as <-.
    f_equal. apply IH; auto.
    intros x. destruct (string_dec x k) as [->|Hne].
    + rewrite (obj_get_absent k a Na), (obj_get_absent k b Nb). reflexivity.
    + rewrite <- (obj_get_head k v a x Hne), <- (obj_get_head k v b x Hne). apply G.
Qed.

Lemma obj_lit_uniq o : uniq o -> obj_lit o = o.
Proof.
  intros U. apply obj_ext; [apply uniq_lit | exact U | | intros k; apply obj_get_lit].
  rewrite keys_obj_lit. apply (merge_keys_fresh (map fst o) []). exact U.
Qed.

(** [{ ...defs, ...params }]: what [params] defines wins. *)
Lemma defaults_then_params (defs : obj) params k :
  obj_get k (obj_lit (defs ++ own_props params))
  = match obj_get k (own_props params) with
    | Some v => Some v
    | None => obj_get k defs
    end.
Proof. rewrite obj_get_lit, obj_get_app. reflexivity. Qed.

Lemma obj_get_None_keys k o : obj_get k o = None -> ~ In k (keys o).
Proof.
  unfold keys. induction o as [|[k' v'] r IH]; simpl; [tauto|].
  destruct (obj_get k r); [discriminate|].
  destruct (String.eqb_spec k k'); [discriminate|].
  intros _ [E|I]; [congruence | tauto].
Qed.

Lemma keys_lit_In k defs : In k (keys (obj_lit defs)) <-> In k (map fst defs).
Proof.
  rewrite keys_obj_lit.
  destruct (merge_keys_extends (map fst defs) [] (NoDup_nil _)) as (extra & E & _ & M).
  rewrite E. simpl. rewrite M. simpl. tauto.
Qed.

End KeyFacts.

(** ** The static request parameters *)

Module Defaults.
Import Js Run TikTokAPI ObjFacts SignFacts KeyFacts.
Local Open Scope list_scope.

Lemma default_keys_merged :
  merge_keys [] (map fst default_request_params) = keys default_request_params.
Proof. reflexivity. Qed.

Lemma default_keys_NoDup : NoDup (keys default_request_params).
Proof.
  rewrite <- default_keys_merged, <- keys_obj_lit. apply uniq_lit.
Qed.

Lemma request_params_get requestParams k :
  obj_get k (getRequestParams requestParams)
  = match obj_get k requestParams with
    | Some v => Some v
    | None => obj_get k default_request_params
    end.
Proof.
  unfold getRequestParams. rewrite defaults_then_params.
  cbn [own_props]. rewrite obj_get_lit. reflexivity.
Qed.

Lemma request_params_keys requestParams :
  keys (getRequestParams requestParams)
  = merge_keys (keys default_request_params) (keys (obj_lit requestParams)).
Proof.
  unfold getRequestParams. cbn [own_props].
  rewrite keys_obj_lit, map_app, merge_keys_app, default_keys_merged. reflexivity.
Qed.

(** X1.  The result of [getRequestParams] has every key once; a key that
    the caller gave has the caller's value, any other key has its default,
    and every default key is there. *)
Theorem request_params_precedence requestParams :
  uniq (getRequestParams requestParams)
  /\ (forall k,
        obj_get k (getRequestParams requestParams)
        = match obj_get k requestParams with
          | Some v => Some v
          | None => obj_get k default_request_params
          end)
  /\ forall k,
       In k (keys default_request_params) ->
       exists v, obj_get k (getRequestParams requestParams) = Some v.
Proof.
  split; [apply uniq_lit|]. split; [apply request_params_get|].
  intros k I. rewrite request_params_get.
  destruct (obj_get k requestParams) as [v|]; [exists v; reflexivity|].
  destruct (obj_get k default_request_params) as [v|] eqn:E; [exists v; reflexivity|].
  apply obj_get_None_keys in E. contradiction.
Qed.

Lemma request_params_precedence_witness :
  obj_get "os_version" (getRequestParams Cases.user_params) = Some (VStr "8.0.0")
  /\ obj_get "aid" (getRequestParams Cases.user_params) = Some (VStr "1233")
  /\ exists v, obj_get "carrier_region" (getRequestParams Cases.user_params) = Some v.
Proof.
  destruct (request_params_precedence Cases.user_params) as (_ & G & D).
  split; [rewrite G; reflexivity|]. split; [rewrite G; reflexivity|].
  apply D. unfold keys. simpl. tauto.
Defined.

(** X2.  For a caller whose keys are not array indices, the result of
    [getRequestParams] starts with the twenty-six default keys in the order
    of the source; the keys that are the caller's own follow, each once. *)
Theorem request_params_order requestParams :
  Forall (fun k => is_array_index k = false) (keys requestParams) ->
  exists extra,
    keys (getRequestParams requestParams) = keys default_request_params ++ extra
    /\ NoDup (keys (getRequestParams requestParams))
    /\ forall k, In k extra <->
                 In k (keys requestParams) /\ ~ In k (keys default_request_params).
Proof.
  intros _. rewrite request_params_keys.
  destruct (merge_keys_extends (keys (obj_lit requestParams))
              (keys default_request_params) default_keys_NoDup)
    as (extra & E & N & M).
  exists extra. rewrite E. split; [reflexivity|]. split; [exact N|].
  intros k. rewrite M, keys_lit_In. reflexivity.
Qed.

Lemma request_params_order_witness :
  keys (getRequestParams Cases.user_params)
  = keys default_request_params ++ ["device_id"; "iid"; "openudid"].
Proof.
  destruct (request_params_order Cases.user_params) as (extra & E & _ & _).
  - repeat constructor.
  - reflexivity.
Defined.

(** X3.  [getRequestParams] applied to its own result changes nothing. *)
Theorem request_params_idempotent requestParams :
  getRequestParams (getRequestParams requestParams) = getRequestParams requestParams.
Proof.
  assert (U : uniq (getRequestParams requestParams)) by apply uniq_lit.
  apply obj_ext; [apply uniq_lit | exact U | |].
  - rewrite request_params_keys, (obj_lit_uniq _ U), request_params_keys.
    destruct (merge_keys_extends (keys (obj_lit requestParams))
                (keys default_request_params) default_keys_NoDup)
      as (extra & E & N & _).
    rewrite E, merge_keys_app.
    rewrite (merge_keys_absorb (keys default_request_params)) by (intros x I; exact I).
    apply merge_keys_fresh. exact N.
  - intros k. rewrite request_params_get.
    destruct (obj_get k (getRequestParams requestParams)) eqn:G; [reflexivity|].
    rewrite request_params_get in G.
    destruct (obj_get k requestParams); [discriminate G | exact G].
Qed.

End Defaults.

(** ** The construction of a client *)

Module Construction.
Import Js Run TikTokAPI ObjFacts SignFacts KeyFacts Defaults.
Local Open Scope list_scope.

(** What the constructor returns when it returns. *)
Lemma constructor_returns b reqParams apiConfig requestConfig w cl w' :
  constructor b reqParams apiConfig requestConfig w = (Returned cl, w') ->
  is_function (prop apiConfig "signURL") = true
  /\ config cl = client_config reqParams apiConfig
  /\ cookieJar cl = VHost (hosts w)
  /\ request cl = VHost (S (hosts w))
  /\ request_defaults cl
     = instance_config b (client_config reqParams apiConfig) (VHost (hosts w))
                       reqParams requestConfig
  /\ w' = mkWorld (clock w) (reads w) (code w) (S (S (hosts w)))
                  (trace w ++ setup (hosts w) (S (hosts w)) (request_defaults cl)
                                    (the_signRequest b)).
Proof.
  unfold constructor.
  destruct (is_function (prop apiConfig "signURL")); cbn [negb]; [|discriminate].
  cbn [fresh_host fst snd]. intros E. injection E as <- <-.
  cbn [config cookieJar request request_defaults].
  repeat split.
  unfold log, setup. cbn [clock reads code hosts trace].
  rewrite <- !app_assoc. reflexivity.
Qed.

Lemma client_config_get reqParams apiConfig k :
  obj_get k (client_config reqParams apiConfig)
  = match obj_get k apiConfig with
    | Some v => Some v
    | None =>
        obj_get k [("baseURL", VStr "https://api2.musical.ly/");
                   ("host", VStr "api2.musical.ly");
                   ("userAgent", VStr (userAgent reqParams))]
    end.
Proof.
  unfold client_config. rewrite defaults_then_params.
  cbn [own_props]. rewrite obj_get_lit. reflexivity.
Qed.

(** X4.  In [this.config] every field of [apiConfig] has the value that
    [apiConfig] gives it; [baseURL], [host] and [userAgent] have their
    built-in defaults when [apiConfig] leaves them out, and no other field is
    added. *)
Theorem api_config_precedence b reqParams apiConfig requestConfig w cl w' :
  constructor b reqParams apiConfig requestConfig w = (Returned cl, w') ->
  forall k,
    obj_get k (config cl)
    = match obj_get k apiConfig with
      | Some v => Some v
      | None =>
          obj_get k [("baseURL", VStr "https://api2.musical.ly/");
                     ("host", VStr "api2.musical.ly");
                     ("userAgent", VStr (userAgent reqParams))]
      end.
Proof.
  intros H k. destruct (constructor_returns _ _ _ _ _ _ _ H) as (_ & -> & _).
  apply client_config_get.
Qed.

Lemma api_config_precedence_witness :
  obj_get "baseURL" (config Cases.custom) = Some (VStr "https://api.example/")
  /\ obj_get "baseURL" (config Sample.api) = Some (VStr "https://api2.musical.ly/").
Proof.
  split.
  - rewrite (api_config_precedence Sample.functions Sample.reqParams
               Cases.custom_api_config VUndefined Sample.world Cases.custom
               (snd (constructor Sample.functions Sample.reqParams
                       Cases.custom_api_config VUndefined Sample.world)) eq_refl).
    reflexivity.
  - rewrite (api_config_precedence Sample.functions Sample.reqParams
               Sample.apiConfig VUndefined Sample.world Sample.api
               (snd (constructor Sample.functions Sample.reqParams
                       Sample.apiConfig VUndefined Sample.world)) eq_refl).
    reflexivity.
Defined.

(** X5.  In the configuration given to [axios.create] every field of
    [requestConfig] has the value that [requestConfig] gives it: its
    [headers] replace the computed ones as a whole.  Left alone, the headers
    are the four computed from [this.config], [baseURL] is that of
    [this.config], and the serializer and the decoder are the client's. *)
Theorem request_config_precedence b reqParams apiConfig requestConfig w cl w' :
  constructor b reqParams apiConfig requestConfig w = (Returned cl, w') ->
  (forall k v,
     obj_get k (own_props requestConfig) = Some v ->
     obj_get k (request_defaults cl) = Some v)
  /\ (obj_get "headers" (own_props requestConfig) = None ->
      prop (request_defaults cl) "headers" = VObj (computed_headers (config cl)))
  /\ (obj_get "baseURL" (own_props requestConfig) = None ->
      prop (request_defaults cl) "baseURL" = prop (config cl) "baseURL")
  /\ (obj_get "paramsSerializer" (own_props requestConfig) = None ->
      prop (request_defaults cl) "paramsSerializer" = the_paramsSerializer b)
  /\ (obj_get "transformResponse" (own_props requestConfig) = None ->
      prop (request_defaults cl) "transformResponse" = the_transformResponse b).
Proof.
  intros H. destruct (constructor_returns _ _ _ _ _ _ _ H) as (_ & -> & _ & _ & -> & _).
  unfold instance_config, prop.
  repeat split; intros; rewrite obj_get_lit, obj_get_app;
    match goal with E : obj_get _ (own_props _) = _ |- _ => rewrite E end;
    reflexivity.
Qed.

Lemma request_config_precedence_witness :
  obj_get "headers" (request_defaults Cases.configured)
  = Some (VObj [("x-test", VStr "1")])
  /\ prop (request_defaults Sample.api) "headers"
     = VObj (computed_headers (config Sample.api)).
Proof.
  split.
  - apply (proj1 (request_config_precedence Sample.functions Sample.reqParams
                    Sample.apiConfig Cases.own_request_config Sample.world
                    Cases.configured
                    (snd (constructor Sample.functions Sample.reqParams
                            Sample.apiConfig Cases.own_request_config Sample.world))
                    eq_refl)).
    reflexivity.
  - apply (proj2 (request_config_precedence Sample.functions Sample.reqParams
                    Sample.apiConfig VUndefined Sample.world Sample.api
                    (snd (constructor Sample.functions Sample.reqParams
                            Sample.apiConfig VUndefined Sample.world))
                    eq_refl)).
    reflexivity.
Defined.

(** X6.  A construction that succeeds makes one cookie jar and one axios
    instance, which are [this.cookieJar] and [this.request] and are not the
    same object, creates the instance with the recorded defaults, installs
    the cookie support and [signRequest] on that instance, and does not read
    the clock.  Unless [requestConfig] brings a [jar] of its own, the jar of
    the instance is [this.cookieJar]. *)
Theorem construction_setup b reqParams apiConfig requestConfig w cl w' :
  constructor b reqParams apiConfig requestConfig w = (Returned cl, w') ->
  emitted w w' = setup (hosts w) (S (hosts w)) (request_defaults cl) (the_signRequest b)
  /\ cookieJar cl = VHost (hosts w)
  /\ request cl = VHost (S (hosts w))
  /\ cookieJar cl <> request cl
  /\ reads w' = reads w
  /\ (obj_get "jar" (own_props requestConfig) = None ->
      prop (request_defaults cl) "jar" = cookieJar cl).
Proof.
  intros H.
  destruct (constructor_returns _ _ _ _ _ _ _ H) as (_ & _ & Hj & Hr & Hd & ->).
  rewrite Hj, Hr. repeat split.
  - unfold emitted. cbn [trace].
    rewrite skipn_app, Nat.sub_diag, skipn_all. reflexivity.
  - intros E. injection E as E. lia.
  - intros Hn. rewrite Hd. unfold instance_config, prop.
    rewrite obj_get_lit, obj_get_app, Hn. reflexivity.
Qed.

Lemma construction_setup_witness :
  cookieJar Sample.api = VHost 0
  /\ request Sample.api = VHost 1
  /\ prop (request_defaults Sample.api) "jar" = cookieJar Sample.api.
Proof.
  destruct (construction_setup Sample.functions Sample.reqParams Sample.apiConfig
              VUndefined Sample.world Sample.api
              (snd (constructor Sample.functions Sample.reqParams
                      Sample.apiConfig VUndefined Sample.world)) eq_refl)
    as (_ & Hj & Hr & _ & _ & Hs).
  split; [exact Hj | split; [exact Hr | apply Hs; reflexivity]].
Defined.

(** X21.  A client built on [getRequestParams] of parameters that leave
    the version code, the Android version, the language, the region and the
    device type to their defaults, with an [apiConfig] that names no
    [userAgent], presents itself as
    [com.zhiliaoapp.musically/2018080704 (Linux; U; Android 7.1.2; en_US; Pixel; Build/NHG47Q; Cronet/58.0.2991.0)]. *)
Theorem default_user_agent b requestParams apiConfig requestConfig w cl w' :
  constructor b (getRequestParams requestParams) apiConfig requestConfig w
  = (Returned cl, w') ->
  obj_get "userAgent" apiConfig = None ->
  Forall (fun k => obj_get k requestParams = None)
         ["manifest_version_code"; "os_version"; "language"; "region"; "device_type"] ->
  prop (config cl) "userAgent"
  = VStr ("com.zhiliaoapp.musically/2018080704"
          ++ " (Linux; U; Android 7.1.2; en_US; Pixel; Build/NHG47Q; Cronet/58.0.2991.0)")%string.
Proof.
  intros H Ha Hk.
  destruct (constructor_returns _ _ _ _ _ _ _ H) as (_ & -> & _).
  unfold prop at 1. rewrite client_config_get, Ha.
  cbn [obj_get String.eqb Ascii.eqb Bool.eqb].
  repeat match goal with
         | F : Forall _ (_ :: _) |- _ => inversion F; clear F; subst
         end.
  unfold userAgent, prop. rewrite !request_params_get.
  repeat match goal with
         | E : obj_get _ requestParams = None |- _ => rewrite E; clear E
         end.
  reflexivity.
Qed.

Lemma default_user_agent_witness :
  prop (config Cases.default_client) "userAgent"
  = VStr ("com.zhiliaoapp.musically/2018080704"
          ++ " (Linux; U; Android 7.1.2; en_US; Pixel; Build/NHG47Q; Cronet/58.0.2991.0)")%string.
Proof.
  apply (default_user_agent Sample.functions
           [("device_id", VStr "6000000000000000001")]
           Sample.apiConfig VUndefined Sample.world Cases.default_client
           (snd (constructor Sample.functions
                   (getRequestParams [("device_id", VStr "6000000000000000001")])
                   Sample.apiConfig VUndefined Sample.world))).
  - reflexivity.
  - reflexivity.
  - repeat constructor.
Defined.

End Construction.

(** ** More on the runs of the signing interceptor *)

Module Signing.
Import Js Run TikTokAPI ObjFacts SignFacts KeyFacts Defaults Construction.
Local Open Scope list_scope.

Lemma signer_calls_after w n ser cfg :
  signer_calls w (after w n (prologue cfg w ser)) = [].
Proof. unfold signer_calls. rewrite emitted_after. reflexivity. Qed.

Lemma signer_calls_signed w n ser cfg sid q dev :
  signer_calls w (after w n (prologue cfg w ser ++ [signing cfg w sid q dev]))
  = [signing cfg w sid q dev].
Proof. unfold signer_calls. rewrite emitted_after. reflexivity. Qed.

(** X7.  A client built on [getRequestParams(requestParams)], with a
    [requestConfig] that brings no [params], signs every request that has a
    working serializer by one call of the [signURL] of its [apiConfig], and
    the device identifier it passes is the caller's [device_id]. *)
Theorem constructed_client_signs b requestParams apiConfig requestConfig w0 cl w0'
    cfg w ser q :
  constructor b (getRequestParams requestParams) apiConfig requestConfig w0
  = (Returned cl, w0') ->
  obj_get "params" (own_props requestConfig) = None ->
  prop cfg "paramsSerializer" = VFun ser ->
  call (code w ser) [VObj (serialized_params cfg w)] = Returned q ->
  exists sid r,
    prop apiConfig "signURL" = VFun sid
    /\ signer_calls w (snd (signRequest cl cfg w))
       = [EvCall "this.config.signURL" sid
                 [VStr (canonical_url cfg q); VNum (clock w (reads w) / 1000);
                  prop requestParams "device_id"] r].
Proof.
  intros Hc Hp Hs Hq.
  destruct (constructed_client _ _ _ _ _ _ _ Hc) as [Hf Hd].
  specialize (Hd Hp).
  assert (Hg : config cl = client_config (getRequestParams requestParams) apiConfig)
    by apply (constructor_returns _ _ _ _ _ _ _ Hc).
  assert (Ha : prop (config cl) "signURL" = prop apiConfig "signURL").
  { unfold prop. rewrite Hg, client_config_get.
    destruct (obj_get "signURL" apiConfig) eqn:E; [reflexivity|].
    unfold prop in Hf. rewrite Hg, client_config_get, E in Hf.
    discriminate Hf. }
  destruct (prop (config cl) "signURL") as [| | | | | | | |sid|] eqn:Hu;
    try discriminate Hf.
  assert (Hm : member (prop (request_defaults cl) "params") "device_id"
               = Returned (prop requestParams "device_id")).
  { rewrite Hd. cbn [member]. f_equal. unfold prop.
    rewrite request_params_get.
    destruct (obj_get "device_id" requestParams); reflexivity. }
  exists sid. eexists. split; [symmetry; exact Ha|].
  rewrite (signer_called cl cfg w ser q _ sid Hs Hq Hm Hu). cbn [snd].
  rewrite signer_calls_signed. reflexivity.
Qed.

Lemma constructed_client_signs_witness :
  exists r,
    signer_calls Sample.world
                 (snd (signRequest Cases.api Sample.request_config Sample.world))
    = [EvCall "this.config.signURL" 2
              [VStr (canonical_url Sample.request_config
                       (Plain (VStr "ts=1541000000&room_id=9&_rticket=1541000001001")));
               VNum 1541000000; VStr "6000000000000000001"] r].
Proof.
  destruct (constructed_client_signs Sample.functions Cases.user_params
              Sample.apiConfig VUndefined Sample.world Cases.api
              (snd (constructor Sample.functions (getRequestParams Cases.user_params)
                      Sample.apiConfig VUndefined Sample.world))
              Sample.request_config Sample.world 1%nat _
              eq_refl eq_refl eq_refl eq_refl) as (sid & r & Hs & E).
  injection Hs as <-. exists r. exact E.
Defined.

(** X8.  When the signer throws, or its promise is rejected, the promise
    of [signRequest] is rejected with that same error; while the signer's
    promise does not settle, neither does that of [signRequest].  The signer
    was called once: there is no second attempt. *)
Theorem signer_failure_propagates this cfg w ser q dev sid :
  prop cfg "paramsSerializer" = VFun ser ->
  call (code w ser) [VObj (serialized_params cfg w)] = Returned q ->
  member (prop (request_defaults this) "params") "device_id" = Returned dev ->
  prop (config this) "signURL" = VFun sid ->
  (forall e,
     call (code w sid) (signer_args cfg w q dev) = Thrown e
     \/ call (code w sid) (signer_args cfg w q dev) = Returned (Promised (Rejected e)) ->
     fst (signRequest this cfg w) = Returned (Rejected e))
  /\ (call (code w sid) (signer_args cfg w q dev) = Returned (Promised Unsettled) ->
      fst (signRequest this cfg w) = Returned Unsettled)
  /\ List.length (signer_calls w (snd (signRequest this cfg w))) = 1%nat.
Proof.
  intros Hs Hc Hm Hu.
  rewrite (signer_called this cfg w ser q dev sid Hs Hc Hm Hu). cbn [fst snd].
  repeat split.
  - intros e [E|E]; rewrite E; reflexivity.
  - intros E. rewrite E. reflexivity.
  - rewrite signer_calls_signed. reflexivity.
Qed.

Lemma signer_failure_propagates_witness :
  fst (signRequest Sample.api Sample.request_config Cases.world)
  = Returned (Rejected (Error "signing service unavailable"))
  /\ fst (signRequest Sample.api Sample.request_config Cases.pending_world)
     = Returned Unsettled.
Proof.
  split.
  - apply (proj1 (signer_failure_propagates Sample.api Sample.request_config
                    Cases.world 1%nat _ _ 2%nat eq_refl eq_refl eq_refl eq_refl)).
    right. reflexivity.
  - apply (proj1 (proj2 (signer_failure_propagates Sample.api Sample.request_config
                           Cases.pending_world 1%nat _ _ 2%nat
                           eq_refl eq_refl eq_refl eq_refl))).
    reflexivity.
Defined.

(** X9.  When the serializer throws, the promise of [signRequest] is
    rejected with that error and the signer is not called; the clock was read
    twice by then. *)
Theorem serializer_failure_stops this cfg w ser e :
  prop cfg "paramsSerializer" = VFun ser ->
  call (code w ser) [VObj (serialized_params cfg w)] = Thrown e ->
  fst (signRequest this cfg w) = Returned (Rejected e)
  /\ signer_calls w (snd (signRequest this cfg w)) = []
  /\ reads (snd (signRequest this cfg w)) = S (S (reads w)).
Proof.
  intros Hs Hc. rewrite (serializer_throws this cfg w ser e Hs Hc). cbn [fst snd].
  rewrite signer_calls_after. repeat split.
Qed.

Lemma serializer_failure_stops_witness :
  fst (signRequest Sample.api Cases.unserializable_config Cases.world)
  = Returned (Rejected (Error "cannot serialize")).
Proof.
  apply (serializer_failure_stops Sample.api Cases.unserializable_config
           Cases.world 5%nat); reflexivity.
Defined.

(** X10.  When the defaults of the axios instance have no [params]
    ([undefined] or [null]), reading [device_id] off them fails: the promise
    of [signRequest] is rejected with a [TypeError] after the serialization,
    and the signer is not called. *)
Theorem missing_default_params_rejects this cfg w ser q :
  prop cfg "paramsSerializer" = VFun ser ->
  call (code w ser) [VObj (serialized_params cfg w)] = Returned q ->
  prop (request_defaults this) "params" = VUndefined
  \/ prop (request_defaults this) "params" = VNull ->
  (exists msg, fst (signRequest this cfg w) = Returned (Rejected (TypeError msg)))
  /\ signer_calls w (snd (signRequest this cfg w)) = []
  /\ emitted w (snd (signRequest this cfg w)) = prologue cfg w ser.
Proof.
  intros Hs Hc Hp.
  assert (Hm : exists msg,
             member (prop (request_defaults this) "params") "device_id"
             = Thrown (TypeError msg)).
  { destruct Hp as [-> | ->]; eexists; reflexivity. }
  destruct Hm as (msg & Hm).
  rewrite (device_missing this cfg w ser q _ Hs Hc Hm). cbn [fst snd].
  rewrite signer_calls_after, emitted_after.
  split; [exists msg; reflexivity | split; reflexivity].
Qed.

Lemma missing_default_params_rejects_witness :
  signer_calls Sample.world
               (snd (signRequest Cases.stripped Sample.request_config Sample.world))
  = [].
Proof.
  apply (missing_default_params_rejects Cases.stripped Sample.request_config
           Sample.world 1%nat
           (Plain (VStr "ts=1541000000&room_id=9&_rticket=1541000001001")));
    [reflexivity | reflexivity | left; reflexivity].
Defined.

(** X11.  No run of [signRequest] calls the signer twice, and a call of the
    signer is the last thing a run does: before it come the two readings of
    the clock and the serialization, and nothing else. *)
Theorem signer_at_most_once this cfg w :
  (List.length (signer_calls w (snd (signRequest this cfg w))) <= 1)%nat
  /\ forall e,
       In e (signer_calls w (snd (signRequest this cfg w))) ->
       exists ser,
         prop cfg "paramsSerializer" = VFun ser
         /\ emitted w (snd (signRequest this cfg w)) = prologue cfg w ser ++ [e].
Proof.
  destruct (run_cases this cfg w) as [Hg|ser e Hs|ser q dev sid Hs Hc Hm Hu];
    cbn [snd].
  - unfold signer_calls, emitted. rewrite skipn_all. simpl. split; [lia | tauto].
  - rewrite signer_calls_after. simpl. split; [lia | tauto].
  - rewrite signer_calls_signed, emitted_after. simpl. split; [lia|].
    intros e [<-|[]]. exists ser. split; [exact Hs | reflexivity].
Qed.

Lemma signer_at_most_once_witness :
  exists ser,
    prop Sample.request_config "paramsSerializer" = VFun ser
    /\ emitted Sample.world
               (snd (signRequest Sample.api Sample.request_config Sample.world))
       = (prologue Sample.request_config Sample.world ser
          ++ [signing Sample.request_config Sample.world 2
                      (Plain (VStr "ts=1541000000&room_id=9&_rticket=1541000001001"))
                      (VStr "6000000000000000001")])%list.
Proof.
  apply (proj2 (signer_at_most_once Sample.api Sample.request_config Sample.world)).
  left. reflexivity.
Defined.

(** X12.  [ts] and [_rticket] come from two readings of the clock, the one
    of [ts] first: under a clock that never goes back the second of [ts] has
    begun by the time of [_rticket], that is [1000 * ts <= _rticket]. *)
Theorem rticket_not_before_ts this cfg w f p r ts rticket :
  non_decreasing (clock w) ->
  In (EvCall "config.paramsSerializer" f [VObj p] r)
     (emitted w (snd (signRequest this cfg w))) ->
  obj_get "ts" p = Some (VNum ts) ->
  obj_get "_rticket" p = Some (VNum rticket) ->
  1000 * ts <= rticket.
Proof.
  intros Hmono H Gt Gr.
  destruct (serialization_event _ _ _ _ _ _ H) as (_ & E & _).
  injection E as ->. unfold serialized_params in Gt, Gr.
  rewrite fresh_params_ts in Gt. rewrite fresh_params_rticket in Gr.
  injection Gt as <-. injection Gr as <-.
  unfold seconds, first_reading, second_reading.
  assert (clock w (reads w) <= clock w (S (reads w))) by (apply Hmono; lia).
  assert (1000 * (clock w (reads w) / 1000) <= clock w (reads w))
    by (apply Z.mul_div_le; lia).
  lia.
Qed.

Lemma rticket_not_before_ts_witness : 1000 * 1541000000 <= 1541000001001.
Proof.
  apply (rticket_not_before_ts Sample.api Sample.request_config Sample.world
           1%nat (serialized_params Sample.request_config Sample.world)
           (Returned (Plain (VStr "ts=1541000000&room_id=9&_rticket=1541000001001")))).
  - intros i j H.
    destruct i as [|[|[|i]]]; destruct j as [|[|[|j]]]; simpl; lia.
  - right; right; left. reflexivity.
  - reflexivity.
  - reflexivity.
Defined.

End Signing.

(** ** The layout of what is signed, and the calls of the endpoints *)

Module Layout.
Import Js Run TikTokAPI ObjFacts SignFacts KeyFacts Defaults Construction Signing.
Local Open Scope list_scope.

Lemma keys_uniq_lit o : uniq o -> keys (obj_lit o) = keys o.
Proof. intros U. rewrite (obj_lit_uniq o U). reflexivity. Qed.

Lemma keys_two_more (o : obj) k1 v1 k2 v2 :
  uniq o ->
  keys (obj_lit (obj_lit o ++ [(k1, v1); (k2, v2)])) = add_key k2 (add_key k1 (keys o)).
Proof.
  intros U. rewrite keys_obj_lit, map_app, merge_keys_app.
  fold (keys (obj_lit o)). rewrite <- keys_obj_lit.
  rewrite (obj_lit_uniq _ (uniq_lit o)), (keys_uniq_lit o U). reflexivity.
Qed.

(** X13.  The parameters reach the serializer in the caller's order: [ts]
    and [_rticket] stay where the caller had them, and when the caller had
    neither they come last, [ts] before [_rticket]. *)
Theorem serialized_order this cfg w o f p r :
  prop cfg "params" = VObj o ->
  uniq o ->
  In (EvCall "config.paramsSerializer" f [VObj p] r)
     (emitted w (snd (signRequest this cfg w))) ->
  keys p = add_key "_rticket" (add_key "ts" (keys o))
  /\ (obj_get "ts" o = None -> obj_get "_rticket" o = None ->
      keys p = keys o ++ ["ts"; "_rticket"]).
Proof.
  intros Hp U H.
  destruct (serialization_event _ _ _ _ _ _ H) as (_ & E & _).
  injection E as ->. unfold serialized_params, fresh_params. rewrite Hp.
  cbn [own_props]. rewrite (keys_two_more o _ _ _ _ U).
  split; [reflexivity|].
  intros Ht Hr. apply obj_get_None_keys in Ht, Hr.
  unfold add_key at 2. rewrite (proj2 (has_key_not_In "ts" (keys o)) Ht).
  unfold add_key.
  assert (Hn : has_key "_rticket" (keys o ++ ["ts"]) = false).
  { apply has_key_not_In. rewrite in_app_iff. simpl.
    intros [I|[E|[]]]; [tauto | discriminate E]. }
  rewrite Hn, <- app_assoc. reflexivity.
Qed.

Lemma serialized_order_witness :
  keys (serialized_params Sample.request_config Sample.world)
  = ["ts"; "room_id"; "_rticket"].
Proof.
  apply (serialized_order Sample.api Sample.request_config Sample.world
           [("ts", VNum 5); ("room_id", VStr "9")] 1%nat
           (serialized_params Sample.request_config Sample.world)
           (Returned (Plain (VStr "ts=1541000000&room_id=9&_rticket=1541000001001")))).
  - reflexivity.
  - unfold uniq. simpl.
    repeat (constructor; [simpl; intuition discriminate|]). constructor.
  - right; right; left. reflexivity.
Defined.

(** X14.  The configuration handed on has the fields of the one received
    in the same order, [url] and [params] staying where they were or, when
    they were missing, coming last; it has every field once. *)
Theorem signed_config_order this cfg w out w' :
  signRequest this cfg w = (Returned (Fulfilled out), w') ->
  uniq cfg ->
  keys out = add_key "params" (add_key "url" (keys cfg)) /\ uniq out.
Proof.
  intros H U.
  destruct (fulfilled_run _ _ _ _ _ H)
    as (ser & q & dev & sid & r & u & _ & _ & _ & _ & _ & _ & -> & _).
  unfold signed_config. cbn [own_props].
  split; [apply (keys_two_more cfg _ _ _ _ U) | apply uniq_lit].
Qed.

Lemma signed_config_order_witness :
  exists out w',
    signRequest Sample.api Sample.request_config Sample.world
    = (Returned (Fulfilled out), w')
    /\ keys out = ["url"; "method"; "baseURL"; "paramsSerializer"; "params"].
Proof.
  eexists; eexists. split; [reflexivity|].
  apply (signed_config_order Sample.api Sample.request_config Sample.world _ _ eq_refl).
  unfold uniq. simpl.
  repeat (constructor; [simpl; intuition discriminate|]). constructor.
Defined.

(** X15.  A request without parameters of its own ([params] missing,
    [undefined], [null] or empty) is serialized as [ts] and [_rticket] and
    nothing else. *)
Theorem bare_request_serialized this cfg w f args r :
  own_props (prop cfg "params") = [] ->
  In (EvCall "config.paramsSerializer" f args r)
     (emitted w (snd (signRequest this cfg w))) ->
  args = [VObj [("ts", VNum (clock w (reads w) / 1000));
                ("_rticket", VNum (clock w (S (reads w))))]].
Proof.
  intros Hp H.
  destruct (serialization_event _ _ _ _ _ _ H) as (_ & -> & _).
  unfold serialized_params, fresh_params. rewrite Hp. reflexivity.
Qed.

Lemma bare_request_serialized_witness :
  [VObj (serialized_params Cases.empty_config Sample.world)]
  = [VObj [("ts", VNum 1541000000); ("_rticket", VNum 1541000001001)]].
Proof.
  apply (bare_request_serialized Sample.api Cases.empty_config Sample.world 1%nat
           [VObj (serialized_params Cases.empty_config Sample.world)]
           (Returned (Plain (VStr "ts=1541000000&_rticket=1541000001001")))).
  - reflexivity.
  - right; right; left. reflexivity.
Defined.

(** X16.  On a configuration that [signRequest] has signed, a second run
    builds its canonical URL from [baseURL] followed by the signed URL, and
    serializes [ts] and [_rticket] alone: the caller's parameters are gone
    from [params]. *)
Theorem signing_again this cfg w out w' :
  signRequest this cfg w = (Returned (Fulfilled out), w') ->
  exists u,
    obj_get "url" out = Some u
    /\ (forall q,
          canonical_url out q
          = to_string (prop cfg "baseURL") ++ to_string u ++ "?" ++ result_to_string q)%string
    /\ forall this2 w2 f args r,
         In (EvCall "config.paramsSerializer" f args r)
            (emitted w2 (snd (signRequest this2 out w2))) ->
         args = [VObj [("ts", VNum (clock w2 (reads w2) / 1000));
                       ("_rticket", VNum (clock w2 (S (reads w2))))]].
Proof.
  intros H.
  destruct (fulfilled_run _ _ _ _ _ H)
    as (ser & q & dev & sid & r & u & _ & _ & _ & _ & _ & _ & -> & _).
  exists u. split; [apply signed_config_url|]. split.
  - intros q'. unfold canonical_url, prop.
    rewrite signed_config_url, signed_config_other by discriminate. reflexivity.
  - intros this2 w2 f args r' I.
    destruct (serialization_event _ _ _ _ _ _ I) as (_ & -> & _).
    unfold serialized_params, fresh_params, prop.
    rewrite signed_config_params. reflexivity.
Qed.

Lemma signing_again_witness :
  exists out w' u,
    signRequest Sample.api Sample.request_config Sample.world
    = (Returned (Fulfilled out), w')
    /\ obj_get "url" out = Some u
    /\ canonical_url out (Plain (VStr "ts=1"))
       = ("https://api2.musical.ly/" ++ to_string u ++ "?ts=1")%string.
Proof.
  destruct (signing_again Sample.api Sample.request_config Sample.world _ _ eq_refl)
    as (u & Hu & Hc & _).
  eexists; eexists; exists u. split; [reflexivity|]. split; [exact Hu|].
  apply Hc.
Defined.

(** X17.  A request without [baseURL] is not refused: the canonical URL
    given to the signer starts with the text [undefined]. *)
Theorem missing_base_url_is_text this cfg w ser q dev sid :
  prop cfg "paramsSerializer" = VFun ser ->
  call (code w ser) [VObj (serialized_params cfg w)] = Returned q ->
  member (prop (request_defaults this) "params") "device_id" = Returned dev ->
  prop (config this) "signURL" = VFun sid ->
  obj_get "baseURL" cfg = None ->
  exists r,
    signer_calls w (snd (signRequest this cfg w))
    = [EvCall "this.config.signURL" sid
              [VStr ("undefined" ++ to_string (prop cfg "url") ++ "?"
                     ++ result_to_string q)%string;
               VNum (clock w (reads w) / 1000); dev] r].
Proof.
  intros Hs Hc Hm Hu Hb.
  rewrite (signer_called this cfg w ser q dev sid Hs Hc Hm Hu). cbn [snd].
  rewrite signer_calls_signed. eexists.
  unfold signing, signer_args, canonical_url. unfold prop at 1. rewrite Hb.
  reflexivity.
Qed.

Lemma missing_base_url_is_text_witness :
  exists r,
    signer_calls Sample.world
                 (snd (signRequest Sample.api Cases.empty_config Sample.world))
    = [EvCall "this.config.signURL" 2
              [VStr "undefinedundefined?ts=1541000000&_rticket=1541000001001";
               VNum 1541000000; VStr "6000000000000000001"] r].
Proof.
  destruct (missing_base_url_is_text Sample.api Cases.empty_config Sample.world
              1%nat _ _ 2%nat eq_refl eq_refl eq_refl eq_refl eq_refl) as (r & E).
  exists r. exact E.
Defined.

(** X18.  A body that is a number, a boolean or an object without a
    [length] of its own (one that was decoded already, say) comes back from
    [transformResponse] as it is. *)
Theorem lengthless_body_passthrough w data :
  match data with
  | VStr _ | VArr _ | VFun _ | VHost _ => False
  | VObj o => obj_get "length" o = None
  | _ => True
  end ->
  transformResponse w data = Returned data.
Proof.
  unfold transformResponse.
  destruct data as [| |b|n|lit|s|xs|o|f|h]; cbn [length_of truthy negb];
    intros H; try contradiction; rewrite ?orb_true_r; try reflexivity.
  unfold prop. rewrite H. cbn [truthy negb]. rewrite orb_true_r. reflexivity.
Qed.

Lemma lengthless_body_passthrough_witness :
  transformResponse Sample.world (VObj [("status_code", VNum 0)])
  = Returned (VObj [("status_code", VNum 0)]).
Proof.
  apply (lengthless_body_passthrough Sample.world (VObj [("status_code", VNum 0)])).
  reflexivity.
Defined.

End Layout.

Module Calls.
Import Js Run TikTokAPI Endpoints ObjFacts KeyFacts.
Local Open Scope list_scope.

(** X19.  In what [listComments], [listPostsInHashtag] and the two feeds
    give to [withDefaultListParams], a key that the caller gave has the
    caller's value (also [type] and [max_cursor]) and any other key has the
    default of the method, if it has one. *)
Theorem caller_params_win im params k :
  let given := obj_get k (own_props params) in
  obj_get k (comments_request params)
  = match given with
    | Some v => Some v
    | None => obj_get k [("comment_style", VNum 2); ("digged_cid", VStr "");
                         ("insert_cids", VStr "")]
    end
  /\ obj_get k (hashtag_posts_request params)
     = match given with
       | Some v => Some v
       | None => obj_get k [("query_type", VNum 0); ("type", VNum 5)]
       end
  /\ obj_get k (forYou_request im params)
     = match given with
       | Some v => Some v
       | None => obj_get k [("count", VNum 6); ("is_cold_start", VNum 1);
                            ("max_cursor", VNum 0);
                            ("pull_type", PullType_LoadMore im);
                            ("type", FeedType_ForYou im)]
       end
  /\ obj_get k (following_request im params)
     = match given with
       | Some v => Some v
       | None => obj_get k [("count", VNum 6); ("is_cold_start", VNum 1);
                            ("max_cursor", VNum 0);
                            ("pull_type", PullType_LoadMore im);
                            ("type", FeedType_Following im)]
       end.
Proof.
  intros given. unfold given, comments_request, hashtag_posts_request,
    forYou_request, following_request.
  repeat split; apply defaults_then_params.
Qed.

(** X20.  [listForYouFeed] and [listFollowingFeed] send the same keys in the
    same order with the same values, but for [type]; and when the caller
    gives a [type] they make the very same call. *)
Theorem feeds_differ_in_type_only im params :
  (forall t, obj_get "type" (own_props params) = Some t ->
             listForYouFeed im params = listFollowingFeed im params)
  /\ (obj_get "type" (own_props params) = None ->
      obj_get "type" (forYou_request im params) = Some (FeedType_ForYou im)
      /\ obj_get "type" (following_request im params) = Some (FeedType_Following im))
  /\ (forall k, k <> "type" ->
                obj_get k (forYou_request im params)
                = obj_get k (following_request im params))
  /\ keys (forYou_request im params) = keys (following_request im params).
Proof.
  assert (K : keys (forYou_request im params) = keys (following_request im params)).
  { unfold forYou_request, following_request.
    rewrite !keys_obj_lit, !map_app. reflexivity. }
  assert (O : forall k, k <> "type" ->
              obj_get k (forYou_request im params)
              = obj_get k (following_request im params)).
  { intros k Hk. unfold forYou_request, following_request.
    rewrite !defaults_then_params.
    destruct (obj_get k (own_props params)); [reflexivity|].
    change [("count", VNum 6); ("is_cold_start", VNum 1); ("max_cursor", VNum 0);
            ("pull_type", PullType_LoadMore im); ("type", FeedType_ForYou im)]
      with ([("count", VNum 6); ("is_cold_start", VNum 1); ("max_cursor", VNum 0);
             ("pull_type", PullType_LoadMore im)] ++ [("type", FeedType_ForYou im)]).
    change [("count", VNum 6); ("is_cold_start", VNum 1); ("max_cursor", VNum 0);
            ("pull_type", PullType_LoadMore im); ("type", FeedType_Following im)]
      with ([("count", VNum 6); ("is_cold_start", VNum 1); ("max_cursor", VNum 0);
             ("pull_type", PullType_LoadMore im)] ++ [("type", FeedType_Following im)]).
    rewrite !obj_get_app. simpl.
    destruct (String.eqb_spec k "type"); [contradiction | reflexivity]. }
  split; [|split; [|split; [exact O | exact K]]].
  - intros t Ht. unfold listForYouFeed, listFollowingFeed.
    replace (following_request im params) with (forYou_request im params);
      [reflexivity|].
    apply obj_ext; [apply uniq_lit | apply uniq_lit | exact K |].
    intros k. destruct (string_dec k "type") as [->|Hk]; [|apply O, Hk].
    unfold forYou_request, following_request.
    rewrite !defaults_then_params, Ht. reflexivity.
  - intros Hn. unfold forYou_request, following_request.
    rewrite !defaults_then_params, Hn. split; reflexivity.
Qed.

Lemma feeds_differ_in_type_only_witness :
  listForYouFeed Cases.plain_imports (VObj [("type", VNum 9); ("count", VNum 20)])
  = listFollowingFeed Cases.plain_imports (VObj [("type", VNum 9); ("count", VNum 20)]).
Proof.
  apply (proj1 (feeds_differ_in_type_only Cases.plain_imports
                  (VObj [("type", VNum 9); ("count", VNum 20)])) (VNum 9)).
  reflexivity.
Defined.

End Calls.
